(** * A student record book on SQLite: model of [streamlit_app.py]

    The program keeps two tables in the file [students.db] and reaches them
    through six Python functions, each of which opens a connection, runs one
    SQL statement, commits and closes.  The development has three layers:

    - the tables and the SQL statements of the program, as functions on a
      [database] value (what SQLite does with one statement);
    - Python's [sqlite3] connections: a heap of open connections over the
      file, with the implicit transaction, [commit] and [close];
    - the program's functions [init_db], [add_student], [get_students],
      [delete_student], [add_record], [get_records] and [delete_record],
      written statement by statement in a state-and-exception monad.

    Modelling boundaries.  Text is a [string] of bytes (the UTF-8 encoding
    SQLite stores and compares with [memcmp]).  Ids are SQLite INTEGERs,
    taken as [Z]: [sqlite3] refuses to bind a Python int outside 64 bits
    (OverflowError), which is not modelled, so every theorem about an id that
    the caller supplies assumes [int64]; an id read from a table is one.
    Of SQLite's file locks the write lock is modelled: a connection whose
    transaction has written keeps other connections from writing until it
    is closed.  Storage failures (I/O errors, a full disk, the exhaustion of
    the 63-bit row id space) are not modelled. *)

From stdpp Require Import gmap strings list sorting.
From Stdlib Require Import ZArith Ascii Sorting.Sorted.

Local Open Scope Z_scope.

(** ** Rows and tables *)

(** [students (id INTEGER PRIMARY KEY AUTOINCREMENT, name TEXT NOT NULL UNIQUE)] *)
Record student_row := StudentRow { s_id : Z; s_name : string }.

(** [records (id INTEGER PRIMARY KEY AUTOINCREMENT, student_id INTEGER,
              date TEXT NOT NULL, content TEXT NOT NULL,
              FOREIGN KEY (student_id) REFERENCES students (id) ON DELETE CASCADE)] *)
Record record_row := RecordRow {
  r_id : Z;
  r_student_id : Z;
  r_date : string;
  r_content : string
}.

Global Instance student_row_eq_dec : EqDecision student_row.
Proof. solve_decision. Defined.

Global Instance record_row_eq_dec : EqDecision record_row.
Proof. solve_decision. Defined.

(** A table with an AUTOINCREMENT key: its rows in storage order, and the
    largest row id ever handed out (the table's entry in [sqlite_sequence];
    0 while there is none). *)
Record table (A : Type) := Table { rows : list A; seq : Z }.
Arguments Table {A} _ _.
Arguments rows {A} _.
Arguments seq {A} _.

Definition empty_table {A : Type} : table A := Table [] 0.

(** The file: each table is there or not yet created. *)
Record database := Database {
  students : option (table student_row);
  records : option (table record_row)
}.

Definition empty_database : database := Database None None.

Definition student_rows (db : database) : list student_row :=
  match students db with Some t => rows t | None => [] end.

Definition record_rows (db : database) : list record_row :=
  match records db with Some t => rows t | None => [] end.

Definition student_ids (db : database) : list Z := s_id <$> student_rows db.
Definition student_names (db : database) : list string := s_name <$> student_rows db.
Definition record_ids (db : database) : list Z := r_id <$> record_rows db.

Definition students_seq (db : database) : Z :=
  match students db with Some t => seq t | None => 0 end.

Definition records_seq (db : database) : Z :=
  match records db with Some t => seq t | None => 0 end.

(** ** Exceptions and results *)

(** The exceptions of Python's [sqlite3] that the statements can raise. *)
Inductive exn :=
  | IntegrityError     (* a UNIQUE or FOREIGN KEY constraint failed *)
  | OperationalError   (* no such table *)
  | ProgrammingError.  (* the connection is closed *)

Inductive outcome (A : Type) :=
  | Return (a : A)
  | Raise (e : exn).
Arguments Return {A} _.
Arguments Raise {A} _.

Global Instance exn_eq_dec : EqDecision exn.
Proof. solve_decision. Defined.

(** ** Text order *)

(** TEXT columns use the BINARY collation: byte by byte, a proper prefix
    first.  That is [String.compare]. *)
Definition text_le (a b : string) : bool := String.leb a b.

(** ** ORDER BY *)

(** Rows are sorted by insertion into the sorted rest; a row stays in front
    of the later rows that compare equal to it, so ties keep scan order. *)
Fixpoint insert_sorted {A : Type} (before : A → A → bool) (x : A) (l : list A) : list A :=
  match l with
  | [] => [x]
  | y :: l' => if before x y then x :: y :: l' else y :: insert_sorted before x l'
  end.

Definition order_by {A : Type} (before : A → A → bool) (l : list A) : list A :=
  foldr (insert_sorted before) [] l.

(** [ORDER BY name ASC] *)
Definition name_asc (a b : student_row) : bool := text_le (s_name a) (s_name b).

(** [ORDER BY date DESC] *)
Definition date_desc (a b : record_row) : bool := text_le (r_date b) (r_date a).

(** ** AUTOINCREMENT *)

(** The largest row id in the table, if it has a row. *)
Definition max_rowid (ids : list Z) : option Z :=
  match ids with
  | [] => None
  | i :: ids' => Some (foldr Z.max i ids')
  end.

(** The row id of a new row: one more than the largest in the table (1 in an
    empty table), and at least one more than the largest ever handed out. *)
Definition new_rowid (ids : list Z) (sq : Z) : Z :=
  Z.max (match max_rowid ids with Some m => m + 1 | None => 1 end) (sq + 1).

(** ** The statements of the program *)

(** [CREATE TABLE IF NOT EXISTS students (...)] *)
Definition create_students (db : database) : outcome database :=
  Return (match students db with
          | Some _ => db
          | None => Database (Some empty_table) (records db)
          end).

(** [CREATE TABLE IF NOT EXISTS records (...)] *)
Definition create_records (db : database) : outcome database :=
  Return (match records db with
          | Some _ => db
          | None => Database (students db) (Some empty_table)
          end).

(** [INSERT INTO students (name) VALUES (?)] *)
Definition insert_student (name : string) (db : database) : outcome database :=
  match students db with
  | None => Raise OperationalError
  | Some t =>
      if decide (name ∈ s_name <$> rows t) then Raise IntegrityError
      else
        let v := new_rowid (s_id <$> rows t) (seq t) in
        Return (Database (Some (Table (rows t ++ [StudentRow v name]) v)) (records db))
  end.

(** [SELECT id, name FROM students ORDER BY name ASC] *)
Definition select_students (db : database) : outcome (list (Z * string)) :=
  match students db with
  | None => Raise OperationalError
  | Some t => Return ((λ r, (s_id r, s_name r)) <$> order_by name_asc (rows t))
  end.

(** [DELETE FROM students WHERE id = ?].  [fk] is the connection's
    [PRAGMA foreign_keys]: only when it is on does the deletion of a student
    row take the records that reference it along (ON DELETE CASCADE). *)
Definition delete_student_stmt (fk : bool) (id : Z) (db : database) : outcome database :=
  match students db with
  | None => Raise OperationalError
  | Some t =>
      let kept := filter (λ r, s_id r ≠ id) (rows t) in
      let recs :=
        if fk && bool_decide (id ∈ s_id <$> rows t) then
          (λ rt, Table (filter (λ r, r_student_id r ≠ id) (rows rt)) (seq rt)) <$> records db
        else records db in
      Return (Database (Some (Table kept (seq t))) recs)
  end.

(** [INSERT INTO records (student_id, date, content) VALUES (?, ?, ?)].
    Only when the connection's [PRAGMA foreign_keys] is on is the parent
    row looked for. *)
Definition insert_record (fk : bool) (student_id : Z) (date content : string)
    (db : database) : outcome database :=
  match records db with
  | None => Raise OperationalError
  | Some t =>
      if fk && bool_decide (student_id ∉ student_ids db) then Raise IntegrityError
      else
        let v := new_rowid (r_id <$> rows t) (seq t) in
        Return (Database (students db)
                  (Some (Table (rows t ++ [RecordRow v student_id date content]) v)))
  end.

(** [SELECT id, date, content FROM records WHERE student_id = ? ORDER BY date DESC] *)
Definition select_records (student_id : Z) (db : database)
    : outcome (list (Z * string * string)) :=
  match records db with
  | None => Raise OperationalError
  | Some t =>
      Return ((λ r, (r_id r, r_date r, r_content r)) <$>
                order_by date_desc (filter (λ r, r_student_id r = student_id) (rows t)))
  end.

(** [DELETE FROM records WHERE id=?] *)
Definition delete_record_stmt (id : Z) (db : database) : outcome database :=
  match records db with
  | None => Raise OperationalError
  | Some t =>
      Return (Database (students db)
                (Some (Table (filter (λ r, r_id r ≠ id) (rows t)) (seq t))))
  end.

(** ** Connections of Python's [sqlite3] *)

(** An open connection: its [PRAGMA foreign_keys] setting and, while a
    transaction of it that has written is open, the database as that
    transaction sees it.  Such a transaction holds the write lock of the
    file. *)
Record connection := Connection {
  foreign_keys : bool;
  pending : option database
}.

(** The process and its file: [students.db] as committed, the connections
    that are open, and the next connection handle. *)
Record world := World {
  disk : database;
  conns : gmap nat connection;
  next_handle : nat
}.

(** A Python computation: it runs on the world, returns or raises, and
    leaves a world behind either way. *)
Definition py (A : Type) : Type := world → outcome A * world.

Global Instance py_ret : MRet py := λ A a w, (Return a, w).

Global Instance py_bind : MBind py := λ A B k m w,
  match m w with
  | (Return a, w') => k a w'
  | (Raise e, w') => (Raise e, w')
  end.

(** [try: body except e: handler] *)
Definition try_except {A : Type} (body : py A) (e : exn) (handler : py A) : py A :=
  λ w,
    match body w with
    | (Return a, w') => (Return a, w')
    | (Raise e', w') => if decide (e' = e) then handler w' else (Raise e', w')
    end.

(** What a connection reads: its open transaction, else the file. *)
Definition view (w : world) (cn : connection) : database :=
  default (disk w) (pending cn).

(** [sqlite3.connect('students.db')]: a new connection; SQLite starts every
    connection with [PRAGMA foreign_keys] off, and the program never turns
    it on. *)
Definition connect : py nat := λ w,
  let h := next_handle w in
  (Return h, World (disk w) (<[h := Connection false None]> (conns w)) (S h)).

(** [conn.cursor()]: the cursor works on its connection. *)
Definition cursor (conn : nat) : py nat := mret conn.

(** [c.execute] of a CREATE TABLE statement: [sqlite3] opens no transaction
    for it, so outside a transaction it is committed at once. *)
Definition execute_ddl (c : nat) (stmt : database → outcome database) : py unit := λ w,
  match conns w !! c with
  | None => (Raise ProgrammingError, w)
  | Some cn =>
      match stmt (view w cn) with
      | Raise e => (Raise e, w)
      | Return db' =>
          match pending cn with
          | Some _ =>
              (Return (), World (disk w)
                            (<[c := Connection (foreign_keys cn) (Some db')]> (conns w))
                            (next_handle w))
          | None => (Return (), World db' (conns w) (next_handle w))
          end
      end
  end.

(** Another connection than [c] holds the write lock. *)
Definition write_locked (c : nat) (w : world) : Prop :=
  map_Exists (λ h cn, h ≠ c ∧ is_Some (pending cn)) (conns w).

(** [c.execute] of an INSERT or DELETE statement.  A statement on a table
    that is not there cannot be prepared: OperationalError, and nothing has
    happened.  Else [sqlite3] opens a transaction if none is open and runs
    the statement, which needs the write lock: while another connection
    holds it, OperationalError (database is locked).  With the lock, the
    statement changes the transaction's view, or fails on a constraint and
    changes nothing; either way the transaction stays open and keeps the
    lock. *)
Definition execute_dml (c : nat) (stmt : bool → database → outcome database) : py unit := λ w,
  match conns w !! c with
  | None => (Raise ProgrammingError, w)
  | Some cn =>
      let v := view w cn in
      match stmt (foreign_keys cn) v with
      | Raise OperationalError => (Raise OperationalError, w)
      | r =>
          if decide (write_locked c w) then (Raise OperationalError, w)
          else
            match r with
            | Raise e =>
                (Raise e, World (disk w)
                            (<[c := Connection (foreign_keys cn) (Some v)]> (conns w))
                            (next_handle w))
            | Return db' =>
                (Return (), World (disk w)
                              (<[c := Connection (foreign_keys cn) (Some db')]> (conns w))
                              (next_handle w))
            end
      end
  end.

(** [c.execute] of a SELECT statement: the cursor holds the result rows. *)
Definition execute_select {A : Type} (c : nat) (q : database → outcome (list A))
    : py (list A) := λ w,
  match conns w !! c with
  | None => (Raise ProgrammingError, w)
  | Some cn => (q (view w cn), w)
  end.

(** [c.fetchall()] *)
Definition fetchall {A : Type} (result : list A) : py (list A) := mret result.

(** [conn.commit()]: the open transaction, if any, becomes the file. *)
Definition commit (conn : nat) : py unit := λ w,
  match conns w !! conn with
  | None => (Raise ProgrammingError, w)
  | Some cn =>
      match pending cn with
      | Some db' =>
          (Return (), World db'
                        (<[conn := Connection (foreign_keys cn) None]> (conns w))
                        (next_handle w))
      | None => (Return (), w)
      end
  end.

(** [conn.close()]: the connection is gone, and with it a transaction that
    was not committed. *)
Definition close (conn : nat) : py unit := λ w,
  (Return (), World (disk w) (delete conn (conns w)) (next_handle w)).

(** ** The program *)

(** The seven functions of [streamlit_app.py], one line of Rocq for each
    line of Python. *)

(** [init_db()], lines 8-30. *)
Definition init_db : py unit :=
  conn ← connect;
  c ← cursor conn;
  execute_ddl c create_students;;
  execute_ddl c create_records;;
  commit conn;;
  close conn.

(** [add_student], lines 35-44; [conn.close()] is not reached when the INSERT raises. *)
Definition add_student (name : string) : py bool :=
  try_except
    (conn ← connect;
     c ← cursor conn;
     execute_dml c (λ _, insert_student name);;
     commit conn;;
     close conn;;
     mret true)
    IntegrityError
    (mret false).

(** [get_students], lines 47-53. *)
Definition get_students : py (list (Z * string)) :=
  conn ← connect;
  c ← cursor conn;
  result ← execute_select c select_students;
  students ← fetchall result;
  close conn;;
  mret students.

(** [delete_student], lines 56-61. *)
Definition delete_student (student_id : Z) : py unit :=
  conn ← connect;
  c ← cursor conn;
  execute_dml c (λ fk, delete_student_stmt fk student_id);;
  commit conn;;
  close conn.

(** [add_record], lines 64-70. *)
Definition add_record (student_id : Z) (date content : string) : py unit :=
  conn ← connect;
  c ← cursor conn;
  execute_dml c (λ fk, insert_record fk student_id date content);;
  commit conn;;
  close conn.

(** [get_records], lines 73-79. *)
Definition get_records (student_id : Z) : py (list (Z * string * string)) :=
  conn ← connect;
  c ← cursor conn;
  result ← execute_select c (select_records student_id);
  records ← fetchall result;
  close conn;;
  mret records.

(** [delete_record], lines 82-87. *)
Definition delete_record (record_id : Z) : py unit :=
  conn ← connect;
  c ← cursor conn;
  execute_dml c (λ _, delete_record_stmt record_id);;
  commit conn;;
  close conn.

(** The result of a computation on a world, and the world it leaves. *)
Definition result {A : Type} (m : py A) (w : world) : outcome A := (m w).1.
Definition after {A : Type} (m : py A) (w : world) : world := (m w).2.

(** [m] called [n] times in a row. *)
Fixpoint times (n : nat) (m : py unit) : py unit :=
  match n with
  | O => mret ()
  | S n' => m;; times n' m
  end.

(** The world a call leaves when it has closed its connection, and the one
    it leaves when it has not. *)
Definition closed_world (db : database) (w : world) : world :=
  World db (delete (next_handle w) (conns w)) (S (next_handle w)).

Definition leaked_world (txn : option database) (w : world) : world :=
  World (disk w) (<[next_handle w := Connection false txn]> (conns w))
        (S (next_handle w)).

(** The calls the page makes on the store. *)
Inductive call :=
  | InitDb
  | AddStudent (name : string)
  | GetStudents
  | DeleteStudent (student_id : Z)
  | AddRecord (student_id : Z) (date content : string)
  | GetRecords (student_id : Z)
  | DeleteRecord (record_id : Z).

(** The world after a call, whether it returned or raised. *)
Definition perform (c : call) (w : world) : world :=
  match c with
  | InitDb => (init_db w).2
  | AddStudent name => (add_student name w).2
  | GetStudents => (get_students w).2
  | DeleteStudent id => (delete_student id w).2
  | AddRecord sid date content => (add_record sid date content w).2
  | GetRecords sid => (get_records sid w).2
  | DeleteRecord id => (delete_record id w).2
  end.

Definition perform_all (cs : list call) (w : world) : world :=
  foldl (λ w' c, perform c w') w cs.

(** Whether a call returns or raises, its value left aside. *)
Definition outcome_of {A : Type} (r : outcome A * world) : outcome unit :=
  match r.1 with
  | Return _ => Return ()
  | Raise e => Raise e
  end.

Definition call_outcome (c : call) (w : world) : outcome unit :=
  match c with
  | InitDb => outcome_of (init_db w)
  | AddStudent name => outcome_of (add_student name w)
  | GetStudents => outcome_of (get_students w)
  | DeleteStudent id => outcome_of (delete_student id w)
  | AddRecord sid date content => outcome_of (add_record sid date content w)
  | GetRecords sid => outcome_of (get_records sid w)
  | DeleteRecord id => outcome_of (delete_record id w)
  end.

(** The process at start: no file yet, no connection. *)
Definition fresh_world : world := World empty_database ∅ 0.

(** A small class: two students, added in the order Zoe, Amy, and two
    records of Zoe, the earlier one added first. *)
Definition classroom : world :=
  after (init_db;;
         add_student "Zoe";;
         add_student "Amy";;
         add_record 1 "2024-01-10" "Late for class";;
         add_record 1 "2024-02-05" "Met with parent") fresh_world.

(** Both tables have been created. *)
Definition initialized (db : database) : Prop :=
  is_Some (students db) ∧ is_Some (records db).

(** No connection holds the write lock. *)
Definition unlocked (w : world) : Prop :=
  map_Forall (λ _ cn, pending cn = None) (conns w).

(** The next connection will find the write lock held. *)
Definition busy (w : world) : Prop := write_locked (next_handle w) w.

(** A Python int that [sqlite3] binds as an SQLite INTEGER. *)
Definition int64 (z : Z) : Prop := - 2 ^ 63 ≤ z < 2 ^ 63.

(** The ids that a call passes are ones [sqlite3] binds. *)
Definition call_int64 (c : call) : Prop :=
  match c with
  | DeleteStudent id | DeleteRecord id => int64 id
  | AddRecord sid _ _ | GetRecords sid => int64 sid
  | _ => True
  end.

(** The UNIQUE constraint on [students.name]. *)
Definition unique_names (db : database) : Prop := NoDup (student_names db).

(** The FOREIGN KEY of [records.student_id]: every record has its student. *)
Definition referential_integrity (db : database) : Prop :=
  ∀ r, r ∈ record_rows db → r_student_id r ∈ student_ids db.

(** The PRIMARY KEY of each table. *)
Definition primary_keys (db : database) : Prop :=
  NoDup (student_ids db) ∧ NoDup (record_ids db).

(** AUTOINCREMENT's bookkeeping: no row id in a table exceeds the largest
    one handed out for it. *)
Definition sequence_ok (db : database) : Prop :=
  (∀ i, i ∈ student_ids db → i ≤ students_seq db) ∧
  (∀ i, i ∈ record_ids db → i ≤ records_seq db).

(** What one call can do to a table with an AUTOINCREMENT key: nothing,
    create it, append a row under a new row id, or delete rows. *)
Definition ids_of {A : Type} (key : A → Z) (o : option (table A)) : list Z :=
  match o with Some t => key <$> rows t | None => [] end.

Definition seq_of {A : Type} (o : option (table A)) : Z :=
  match o with Some t => seq t | None => 0 end.

Inductive table_step {A : Type} (key : A → Z) : option (table A) → option (table A) → Prop :=
  | step_same o : table_step key o o
  | step_create : table_step key None (Some empty_table)
  | step_insert t r :
      key r = new_rowid (key <$> rows t) (seq t) →
      table_step key (Some t) (Some (Table (rows t ++ [r]) (key r)))
  | step_delete t (P : A → Prop) (dec : ∀ x, Decision (P x)) :
      table_step key (Some t) (Some (Table (filter P (rows t)) (seq t))).

(** [x] comes before [y] in [l]. *)
Definition comes_before {A : Type} (x y : A) (l : list A) : Prop :=
  ∃ l1 l2 l3, l = l1 ++ x :: l2 ++ y :: l3.

(** ** Calendar dates *)

(** The value of a decimal digit character. *)
Definition digit (a : Ascii.ascii) : option Z :=
  let n := Z.of_N (Ascii.N_of_ascii a) in
  if (48 <=? n) && (n <=? 57) then Some (n - 48) else None.

(** A date text [YYYY-MM-DD], read as year, month and day. *)
Definition parse_ymd (s : string) : option (Z * Z * Z) :=
  match s with
  | String y1 (String y2 (String y3 (String y4 (String h1
      (String m1 (String m2 (String h2 (String d1 (String d2 EmptyString))))))))) =>
      if Ascii.eqb h1 "-"%char && Ascii.eqb h2 "-"%char then
        y1 ← digit y1; y2 ← digit y2; y3 ← digit y3; y4 ← digit y4;
        m1 ← digit m1; m2 ← digit m2; d1 ← digit d1; d2 ← digit d2;
        Some (1000 * y1 + 100 * y2 + 10 * y3 + y4, 10 * m1 + m2, 10 * d1 + d2)
      else None
  | _ => None
  end.

(** Day [a] is earlier in the calendar than day [b]. *)
Definition earlier (a b : Z * Z * Z) : Prop :=
  let '(ya, ma, da) := a in
  let '(yb, mb, db) := b in
  ya < yb ∨ (ya = yb ∧ (ma < mb ∨ (ma = mb ∧ da < db))).

(** ** The page: the script around the store (lines 93-165)

    Streamlit runs the whole script once for every interaction.  What the
    widgets return in a run is the input of that run; [st.rerun()] ends
    it.  Of what the script shows, the messages and the records are kept;
    the fixed titles and rules are left out. *)

(** The [datetime.date] that [st.date_input] returns. *)
Record date := Date { year : Z; month : Z; day : Z }.

(** The dates on which [strftime("%Y-%m-%d")] gives the same text on every
    platform: a calendar day in a year of four digits. *)
Definition valid_date (d : date) : Prop :=
  1000 ≤ year d ≤ 9999 ∧ 1 ≤ month d ≤ 12 ∧ 1 ≤ day d ≤ 31.

(** The character of the last decimal digit of [n]. *)
Definition digit_char (n : Z) : ascii := ascii_of_N (Z.to_N (48 + n mod 10)).

(** [record_date.strftime("%Y-%m-%d")], line 142: year in four digits,
    month and day in two, zero-padded. *)
Definition strftime_ymd (d : date) : string :=
  String (digit_char (year d / 1000)) (String (digit_char (year d / 100))
  (String (digit_char (year d / 10)) (String (digit_char (year d))
  (String "-" (String (digit_char (month d / 10)) (String (digit_char (month d))
  (String "-" (String (digit_char (day d / 10)) (String (digit_char (day d))
  EmptyString))))))))).

(** [record_content.replace("\n", "<br>")], line 161. *)
Fixpoint replace_newlines (s : string) : string :=
  match s with
  | EmptyString => EmptyString
  | String c s' =>
      if Ascii.eqb c "010" then String.append "<br>" (replace_newlines s')
      else String c (replace_newlines s')
  end.

(** A Python [dict] from names to ids: the entries in the order in which
    their keys were first set. *)
Fixpoint dict_set (k : string) (v : Z) (d : list (string * Z)) : list (string * Z) :=
  match d with
  | [] => [(k, v)]
  | (k', v') :: d' =>
      if decide (k' = k) then (k, v) :: d' else (k', v') :: dict_set k v d'
  end.

Fixpoint dict_get (k : string) (d : list (string * Z)) : option Z :=
  match d with
  | [] => None
  | (k', v') :: d' => if decide (k' = k) then Some v' else dict_get k d'
  end.

Definition dict_keys (d : list (string * Z)) : list string := d.*1.

(** [{name: id for id, name in students}], line 120. *)
Definition student_dict (students : list (Z * string)) : list (string * Z) :=
  foldl (λ d '(id, name), dict_set name id d) [] students.

(** What the widgets return in one run of the script. *)
Record widgets := Widgets {
  new_student_name : string;          (* the text input, line 107 *)
  add_clicked : bool;                 (* the button of line 108 *)
  student_choice : nat;               (* the user's choice in the selectbox, line 125 *)
  delete_student_clicked : bool;      (* the button of line 128 *)
  record_date : date;                 (* the date input, line 138 *)
  record_content : string;            (* the text area, line 139 *)
  save_clicked : bool;                (* the button of line 140 *)
  delete_record_clicked : Z → bool    (* the button of each record, by its key, line 163 *)
}.

(** [st.selectbox(..., options=...)] returns one of its options, the one
    the user chose; nothing when there is no option. *)
Definition selectbox (options : list string) (choice : nat) : option string :=
  options !! (choice `mod` length options)%nat.

(** What a run shows. *)
Inductive element :=
  | StudentAdded (name : string)      (* st.sidebar.success, line 111 *)
  | NameTaken                         (* st.sidebar.error, line 114 *)
  | NameMissing                       (* st.sidebar.warning, line 116 *)
  | NoStudents                        (* st.warning, line 123 *)
  | StudentDeleted (name : string)    (* st.sidebar.success, line 130 *)
  | RecordsOf (name : string)         (* st.header, line 134 *)
  | RecordSaved                       (* st.success, line 143 *)
  | ContentMissing                    (* st.warning, line 146 *)
  | NoRecords                         (* st.info, line 155 *)
  | RecordDate (date : string)        (* st.markdown, line 160 *)
  | RecordHtml (html : string).       (* st.markdown, line 161 *)

(** How a run ends: at the end of the script, at [st.rerun()], or at a
    [KeyError] of the dictionary. *)
Inductive ending := Finished | Rerun | KeyError.

(** Lines 108-116. *)
Definition add_student_section (ui : widgets) : py (list element * ending) :=
  if add_clicked ui then
    if bool_decide (new_student_name ui ≠ "") then
      added ← add_student (new_student_name ui);
      if added : bool then mret ([StudentAdded (new_student_name ui)], Rerun)
      else mret ([NameTaken], Finished)
    else mret ([NameMissing], Finished)
  else mret ([], Finished).

(** Lines 140-146. *)
Definition save_record_section (ui : widgets) (selected_student_id : Z)
    : py (list element * ending) :=
  if save_clicked ui then
    if bool_decide (record_content ui ≠ "") then
      add_record selected_student_id (strftime_ymd (record_date ui)) (record_content ui);;
      mret ([RecordSaved], Rerun)
    else mret ([ContentMissing], Finished)
  else mret ([], Finished).

(** Lines 157-165: the loop over the records. *)
Fixpoint records_loop (ui : widgets) (records : list (Z * string * string))
    : py (list element * ending) :=
  match records with
  | [] => mret ([], Finished)
  | (record_id, record_date, record_content) :: rest =>
      let shown := [RecordDate record_date; RecordHtml (replace_newlines record_content)] in
      if delete_record_clicked ui record_id then
        delete_record record_id;;
        mret (shown, Rerun)
      else
        '(more, e) ← records_loop ui rest;
        mret (shown ++ more, e)
  end.

(** Lines 152-165. *)
Definition records_section (ui : widgets) (selected_student_id : Z)
    : py (list element * ending) :=
  records ← get_records selected_student_id;
  if bool_decide (records = []) then mret ([NoRecords], Finished)
  else records_loop ui records.

(** Lines 125-165: the [else] branch, with a student selected. *)
Definition student_section (ui : widgets) (student_dict : list (string * Z))
    : py (list element * ending) :=
  match selectbox (dict_keys student_dict) (student_choice ui) with
  | None => mret ([], KeyError)
  | Some selected_student_name =>
      match dict_get selected_student_name student_dict with
      | None => mret ([], KeyError)
      | Some selected_student_id =>
          if delete_student_clicked ui then
            delete_student selected_student_id;;
            mret ([StudentDeleted selected_student_name], Rerun)
          else
            '(shown1, e1) ← save_record_section ui selected_student_id;
            match e1 with
            | Finished =>
                '(shown2, e2) ← records_section ui selected_student_id;
                mret (RecordsOf selected_student_name :: shown1 ++ shown2, e2)
            | _ => mret (RecordsOf selected_student_name :: shown1, e1)
            end
      end
  end.

(** One run of the script, lines 93-165. *)
Definition script (ui : widgets) : py (list element * ending) :=
  init_db;;
  '(shown1, e1) ← add_student_section ui;
  match e1 with
  | Finished =>
      students ← get_students;
      if bool_decide (students = []) then mret (shown1 ++ [NoStudents], Finished)
      else
        '(shown2, e2) ← student_section ui (student_dict students);
        mret (shown1 ++ shown2, e2)
  | _ => mret (shown1, e1)
  end.

(** The world after the runs for a sequence of interactions. *)
Definition session (uis : list widgets) (w : world) : world :=
  foldl (λ w' ui, after (script ui) w') w uis.

(** No button clicked. *)
Definition idle : widgets :=
  Widgets "" false 0 false (Date 2024 1 1) "" false (λ _, false).

(** A click on one button, nothing else touched. *)
Definition click_add (name : string) : widgets :=
  Widgets name true 0 false (Date 2024 1 1) "" false (λ _, false).

Definition click_delete_student (choice : nat) : widgets :=
  Widgets "" false choice true (Date 2024 1 1) "" false (λ _, false).

Definition click_save (choice : nat) (d : date) (content : string) : widgets :=
  Widgets "" false choice false d content true (λ _, false).

Definition click_delete_record (choice : nat) (id : Z) : widgets :=
  Widgets "" false choice false (Date 2024 1 1) "" false (λ i, bool_decide (i = id)).

(** The file once [init_db] has run on it. *)
Definition with_tables (db : database) : database :=
  Database (Some (default empty_table (students db)))
           (Some (default empty_table (records db))).

(** From a world satisfying [P] the computation returns with a value and a
    world satisfying [Q], or raises and leaves a world satisfying [E]. *)
Definition triple {A : Type} (P : world → Prop) (m : py A)
    (Q : A → world → Prop) (E : world → Prop) : Prop :=
  ∀ w, P w →
    match m w with
    | (Return a, w') => Q a w'
    | (Raise _, w') => E w'
    end.

(** The file is [d], and no connection holds the write lock if [U]. *)
Definition at_file (d : database) (U : Prop) (w : world) : Prop :=
  disk w = d ∧ (U → unlocked w).

(** A button that makes the script delete or save is clicked. *)
Definition other_button (ui : widgets) : Prop :=
  delete_student_clicked ui = true ∨ save_clicked ui = true ∨
  ∃ id, delete_record_clicked ui id = true.

(** What one run of the script does to the file [db]: it creates the
    tables and then executes at most one statement, the one of a button
    that was clicked. *)
Inductive script_step (ui : widgets) (db : database) : database → Prop :=
  | run_reads :
      script_step ui db (with_tables db)
  | run_adds_student db' :
      add_clicked ui = true →
      new_student_name ui ≠ "" →
      insert_student (new_student_name ui) (with_tables db) = Return db' →
      script_step ui db db'
  | run_deletes_student id db' :
      delete_student_clicked ui = true →
      id ∈ student_ids (with_tables db) →
      delete_student_stmt false id (with_tables db) = Return db' →
      script_step ui db db'
  | run_saves_record sid db' :
      save_clicked ui = true →
      record_content ui ≠ "" →
      sid ∈ student_ids (with_tables db) →
      insert_record false sid (strftime_ymd (record_date ui)) (record_content ui)
        (with_tables db) = Return db' →
      script_step ui db db'
  | run_deletes_record id db' :
      delete_record_clicked ui id = true →
      id ∈ record_ids (with_tables db) →
      delete_record_stmt id (with_tables db) = Return db' →
      script_step ui db db'.

(** What the page puts into the file: names and contents that are not
    empty, *)
Definition texts_ok (db : database) : Prop :=
  (∀ s, s ∈ student_rows db → s_name s ≠ "") ∧
  (∀ r, r ∈ record_rows db → r_content r ≠ "").

(** dates as [strftime] writes them, *)
Definition dates_ok (db : database) : Prop :=
  ∀ r, r ∈ record_rows db → ∃ d, valid_date d ∧ r_date r = strftime_ymd d.

(** and records of students whose id has been handed out. *)
Definition owners_ok (db : database) : Prop :=
  ∀ r, r ∈ record_rows db → r_student_id r ≤ students_seq db.

(** Year, month and day of a date. *)
Definition ymd (d : date) : Z * Z * Z := (year d, month d, day d).

(** * Properties *)

(** ** The order of text *)

Lemma string_compare_trans (a b c : string) :
  String.compare a b ≠ Gt → String.compare b c ≠ Gt → String.compare a c ≠ Gt.
Proof.
  revert b c. induction a as [|x a IH]; intros [|y b] [|z c]; simpl; try done.
  unfold Ascii.compare.
  destruct (N.compare_spec (N_of_ascii x) (N_of_ascii y)) as [Hxy|Hxy|Hxy];
    destruct (N.compare_spec (N_of_ascii y) (N_of_ascii z)) as [Hyz|Hyz|Hyz];
    destruct (N.compare_spec (N_of_ascii x) (N_of_ascii z)) as [Hxz|Hxz|Hxz];
    try done; try lia.
  apply IH.
Qed.

Lemma text_le_refl (a : string) : text_le a a = true.
Proof.
  unfold text_le, String.leb.
  assert (String.compare a a = Eq) as ->; [|done].
  induction a as [|x a IH]; simpl; [done|].
  unfold Ascii.compare. by rewrite N.compare_refl.
Qed.

Lemma text_le_total (a b : string) : text_le a b = false → text_le b a = true.
Proof.
  unfold text_le. destruct (String.leb_total a b) as [H|H]; congruence.
Qed.

Lemma text_le_trans (a b c : string) :
  text_le a b = true → text_le b c = true → text_le a c = true.
Proof.
  unfold text_le, String.leb. intros Hab Hbc.
  pose proof (string_compare_trans a b c) as H.
  destruct (String.compare a b), (String.compare b c), (String.compare a c);
    try done; by destruct H.
Qed.

Lemma text_le_antisym (a b : string) :
  text_le a b = true → text_le b a = true → a = b.
Proof. apply String.leb_antisym. Qed.

(** ** ORDER BY sorts and keeps every row *)

Section order_by.
Context {A : Type} (before : A → A → bool).

Lemma insert_sorted_perm (x : A) (l : list A) :
  insert_sorted before x l ≡ₚ x :: l.
Proof.
  induction l as [|y l IH]; simpl; [done|].
  destruct (before x y); [done|]. rewrite IH. apply Permutation_swap.
Qed.

Lemma order_by_perm (l : list A) : order_by before l ≡ₚ l.
Proof.
  induction l as [|x l IH]; simpl; [done|].
  rewrite insert_sorted_perm. by f_equiv.
Qed.

Hypothesis before_total : ∀ x y, before x y = false → before y x = true.
Hypothesis before_trans :
  ∀ x y z, before x y = true → before y z = true → before x z = true.

Lemma insert_sorted_sorted (x : A) (l : list A) :
  StronglySorted (λ a b, before a b = true) l →
  StronglySorted (λ a b, before a b = true) (insert_sorted before x l).
Proof.
  induction 1 as [|y l Hl IH Hy]; simpl.
  - repeat constructor.
  - destruct (before x y) eqn:Hxy.
    + constructor; [by constructor|].
      constructor; [done|]. eapply Forall_impl; [exact Hy|].
      intros z Hz. by eapply before_trans.
    + constructor; [done|].
      rewrite insert_sorted_perm. constructor; [|done].
      by apply before_total.
Qed.

Lemma order_by_sorted (l : list A) :
  StronglySorted (λ a b, before a b = true) (order_by before l).
Proof.
  induction l as [|x l IH]; simpl; [constructor|].
  by apply insert_sorted_sorted.
Qed.
End order_by.

(** In a sorted list, an element that may not follow another precedes it. *)
Lemma sorted_comes_before {A : Type} (R : A → A → Prop) (l : list A) (x y : A) :
  StronglySorted R l → R y y → x ∈ l → y ∈ l → ¬ R y x → comes_before x y l.
Proof.
  intros Hl Hrefl. induction Hl as [|a l Hl IH Ha]; intros Hx Hy Hn.
  - by apply elem_of_nil in Hx.
  - apply elem_of_cons in Hx as [->|Hx]; apply elem_of_cons in Hy as [->|Hy].
    + done.
    + apply list_elem_of_split in Hy as (l2 & l3 & ->).
      by exists [], l2, l3.
    + rewrite Forall_forall in Ha. destruct Hn. by apply Ha.
    + destruct (IH Hx Hy Hn) as (l1 & l2 & l3 & ->).
      by exists (a :: l1), l2, l3.
Qed.

Lemma comes_before_fmap {A B : Type} (f : A → B) (x y : A) (l : list A) :
  comes_before x y l → comes_before (f x) (f y) (f <$> l).
Proof.
  intros (l1 & l2 & l3 & ->).
  exists (f <$> l1), (f <$> l2), (f <$> l3).
  by rewrite fmap_app, fmap_cons, fmap_app, fmap_cons.
Qed.

(** ** Dates: the order of the texts is the order of the calendar *)

Lemma digit_spec (a : ascii) (v : Z) :
  digit a = Some v → Z.of_N (N_of_ascii a) = 48 + v ∧ 0 ≤ v ≤ 9.
Proof.
  unfold digit. intros H.
  destruct (48 <=? Z.of_N (N_of_ascii a)) eqn:H1;
    destruct (Z.of_N (N_of_ascii a) <=? 57) eqn:H2; simplify_eq/=.
  lia.
Qed.

Ltac split_string s H :=
  do 10 (destruct s as [|? s]; [by cbn in H|]);
  destruct s; [|by cbn in H].

Ltac compare_next :=
  match goal with
  | |- match (?a ?= ?b)%N with Eq => _ | Lt => _ | Gt => _ end = Lt =>
      destruct (N.compare_spec a b); [|done|lia]
  end.

Lemma parse_ymd_compare (s1 s2 : string) (t1 t2 : Z * Z * Z) :
  parse_ymd s1 = Some t1 → parse_ymd s2 = Some t2 →
  earlier t1 t2 → String.compare s1 s2 = Lt.
Proof.
  intros H1 H2 He.
  split_string s1 H1. split_string s2 H2.
  cbn [parse_ymd] in H1, H2.
  repeat case_match; simplify_option_eq.
  repeat match goal with
         | H : digit _ = Some _ |- _ => apply digit_spec in H as [? ?]
         | H : _ && _ = true |- _ => apply andb_prop in H as [? ?]
         | H : Ascii.eqb _ _ = true |- _ => apply Ascii.eqb_eq in H; subst
         end.
  unfold earlier in He.
  cbn [String.compare]. unfold Ascii.compare.
  change (N_of_ascii "-" ?= N_of_ascii "-")%N with Eq. cbv iota.
  do 8 compare_next. lia.
Qed.

Lemma parse_ymd_order (s1 s2 : string) (t1 t2 : Z * Z * Z) :
  parse_ymd s1 = Some t1 → parse_ymd s2 = Some t2 →
  earlier t1 t2 → text_le s1 s2 = true ∧ text_le s2 s1 = false.
Proof.
  intros H1 H2 He. unfold text_le, String.leb.
  rewrite (String.compare_antisym s2 s1).
  by rewrite (parse_ymd_compare s1 s2 t1 t2).
Qed.

(** ** What one call does to the world *)

Lemma unlocked_not_busy (w : world) : unlocked w → ¬ busy w.
Proof.
  intros Hu (h & cn & Hh & _ & Hp)%map_Exists_lookup.
  rewrite (Hu h cn Hh) in Hp. by destruct Hp.
Qed.

Lemma write_locked_connect (w : world) (cn : connection) :
  write_locked (next_handle w)
    (World (disk w) (<[next_handle w := cn]> (conns w)) (S (next_handle w))) ↔ busy w.
Proof.
  unfold busy, write_locked. simpl. rewrite !map_Exists_lookup. split.
  - intros (h & c & Hh & Hne & Hp). exists h, c.
    by rewrite lookup_insert_ne in Hh.
  - intros (h & c & Hh & Hne & Hp). exists h, c.
    by rewrite lookup_insert_ne.
Qed.

(** What a function that executes one INSERT or DELETE does. *)
Lemma run_dml (stmt : bool → database → outcome database) (w : world) :
  (conn ← connect; c ← cursor conn; execute_dml c stmt;; commit conn;; close conn) w =
  match stmt false (disk w) with
  | Raise OperationalError => (Raise OperationalError, leaked_world None w)
  | Return db' =>
      if decide (busy w) then (Raise OperationalError, leaked_world None w)
      else (Return (), closed_world db' w)
  | Raise e =>
      if decide (busy w) then (Raise OperationalError, leaked_world None w)
      else (Raise e, leaked_world (Some (disk w)) w)
  end.
Proof.
  unfold mbind, py_bind, connect, cursor, mret, py_ret, execute_dml, commit, close,
    closed_world, leaked_world, view; simpl.
  rewrite lookup_insert_eq; simpl.
  pose proof (write_locked_connect w (Connection false None)) as Hlock.
  simpl in Hlock.
  destruct (stmt false (disk w)) as [db'|[]]; simpl; try done;
    destruct (decide (write_locked _ _)) as [Hl|Hl], (decide (busy w)) as [Hb|Hb];
    simpl; try done; try tauto.
  - rewrite lookup_insert_eq; simpl.
    by rewrite !insert_insert_eq, delete_insert_eq.
  - by rewrite insert_insert_eq.
  - by rewrite insert_insert_eq.
Qed.

Lemma run_select {A : Type} (q : database → outcome (list A)) (w : world) :
  (conn ← connect; c ← cursor conn; rs ← execute_select c q; l ← fetchall rs;
   close conn;; mret l) w =
  match q (disk w) with
  | Return l => (Return l, closed_world (disk w) w)
  | Raise e => (Raise e, leaked_world None w)
  end.
Proof.
  unfold mbind, py_bind, connect, cursor, mret, py_ret, execute_select, fetchall,
    close, closed_world, leaked_world, view; simpl.
  rewrite lookup_insert_eq; simpl.
  destruct (q (disk w)) as [l|e]; simpl; [|done].
  by rewrite delete_insert_eq.
Qed.

Lemma init_db_run (w : world) :
  init_db w =
  (Return (),
   closed_world
     (Database (Some (default empty_table (students (disk w))))
               (Some (default empty_table (records (disk w))))) w).
Proof.
  unfold init_db, mbind, py_bind, connect, cursor, mret, py_ret, execute_ddl,
    commit, close, closed_world, view, create_students, create_records; simpl.
  rewrite lookup_insert_eq; simpl. rewrite lookup_insert_eq; simpl.
  rewrite lookup_insert_eq; simpl. rewrite delete_insert_eq.
  by destruct (disk w) as [[?|] [?|]].
Qed.

Lemma add_student_run (name : string) (w : world) :
  add_student name w =
  match insert_student name (disk w) with
  | Raise OperationalError => (Raise OperationalError, leaked_world None w)
  | Return db' =>
      if decide (busy w) then (Raise OperationalError, leaked_world None w)
      else (Return true, closed_world db' w)
  | Raise IntegrityError =>
      if decide (busy w) then (Raise OperationalError, leaked_world None w)
      else (Return false, leaked_world (Some (disk w)) w)
  | Raise e =>
      if decide (busy w) then (Raise OperationalError, leaked_world None w)
      else (Raise e, leaked_world (Some (disk w)) w)
  end.
Proof.
  unfold add_student, try_except, mbind, py_bind, connect, cursor, mret, py_ret,
    execute_dml, commit, close, closed_world, leaked_world, view; simpl.
  rewrite lookup_insert_eq; simpl.
  pose proof (write_locked_connect w (Connection false None)) as Hlock.
  simpl in Hlock.
  destruct (insert_student name (disk w)) as [db'|[]]; simpl; try done;
    destruct (decide (write_locked _ _)) as [Hl|Hl], (decide (busy w)) as [Hb|Hb];
    simpl; try done; try tauto.
  - rewrite lookup_insert_eq; simpl.
    by rewrite !insert_insert_eq, delete_insert_eq.
  - by rewrite insert_insert_eq.
  - by rewrite insert_insert_eq.
Qed.

Lemma get_students_run (w : world) :
  get_students w =
  match select_students (disk w) with
  | Return l => (Return l, closed_world (disk w) w)
  | Raise e => (Raise e, leaked_world None w)
  end.
Proof. apply run_select. Qed.

Lemma delete_student_run (id : Z) (w : world) :
  delete_student id w =
  match delete_student_stmt false id (disk w) with
  | Raise OperationalError => (Raise OperationalError, leaked_world None w)
  | Return db' =>
      if decide (busy w) then (Raise OperationalError, leaked_world None w)
      else (Return (), closed_world db' w)
  | Raise e =>
      if decide (busy w) then (Raise OperationalError, leaked_world None w)
      else (Raise e, leaked_world (Some (disk w)) w)
  end.
Proof. apply (run_dml (λ fk, delete_student_stmt fk id)). Qed.

Lemma add_record_run (sid : Z) (date content : string) (w : world) :
  add_record sid date content w =
  match insert_record false sid date content (disk w) with
  | Raise OperationalError => (Raise OperationalError, leaked_world None w)
  | Return db' =>
      if decide (busy w) then (Raise OperationalError, leaked_world None w)
      else (Return (), closed_world db' w)
  | Raise e =>
      if decide (busy w) then (Raise OperationalError, leaked_world None w)
      else (Raise e, leaked_world (Some (disk w)) w)
  end.
Proof. apply (run_dml (λ fk, insert_record fk sid date content)). Qed.

Lemma get_records_run (sid : Z) (w : world) :
  get_records sid w =
  match select_records sid (disk w) with
  | Return l => (Return l, closed_world (disk w) w)
  | Raise e => (Raise e, leaked_world None w)
  end.
Proof. apply run_select. Qed.

Lemma delete_record_run (id : Z) (w : world) :
  delete_record id w =
  match delete_record_stmt id (disk w) with
  | Raise OperationalError => (Raise OperationalError, leaked_world None w)
  | Return db' =>
      if decide (busy w) then (Raise OperationalError, leaked_world None w)
      else (Return (), closed_world db' w)
  | Raise e =>
      if decide (busy w) then (Raise OperationalError, leaked_world None w)
      else (Raise e, leaked_world (Some (disk w)) w)
  end.
Proof. apply (run_dml (λ _, delete_record_stmt id)). Qed.

(** ** Listing students *)

(** C4: for every state of the store with a students table, [get_students]
    returns every (id, name) pair of the table, each as often as the table
    has it, in ascending order of the name, whatever the order of the rows
    in the table. *)
Theorem get_students_sorted (w : world) (t : table student_row) :
  students (disk w) = Some t →
  ∃ l, result get_students w = Return l ∧
       l ≡ₚ (λ r, (s_id r, s_name r)) <$> rows t ∧
       StronglySorted (λ a b, text_le a.2 b.2 = true) l.
Proof.
  intros Ht. unfold result. rewrite get_students_run.
  unfold select_students. rewrite Ht. simpl.
  eexists. split; [done|]. split.
  - by rewrite order_by_perm.
  - apply StronglySorted_fmap with (R1 := λ a b, name_asc a b = true); [done|].
    apply order_by_sorted; unfold name_asc.
    + intros x y. apply text_le_total.
    + intros x y z. apply text_le_trans.
Qed.

(** Two sorted lists with the same elements are the same list, when no two
    different elements of them compare equal. *)
Lemma sorted_perm_eq {A : Type} (R : A → A → Prop) (l1 l2 : list A) :
  StronglySorted R l1 → StronglySorted R l2 → l1 ≡ₚ l2 →
  (∀ x y, x ∈ l1 → y ∈ l1 → R x y → R y x → x = y) →
  l1 = l2.
Proof.
  intros H1. revert l2. induction H1 as [|x l1 Hl1 IH Hx]; intros l2 H2 Hp Ha.
  - by apply Permutation_nil_l in Hp.
  - destruct H2 as [|y l2 Hl2 Hy]; [by apply Permutation_nil_r in Hp|].
    rewrite Forall_forall in Hx, Hy.
    assert (x = y) as ->.
    { assert (x ∈ y :: l2) as Hxin by (rewrite <- Hp; left).
      assert (y ∈ x :: l1) as Hyin by (rewrite Hp; left).
      apply elem_of_cons in Hxin as [?|Hxin]; [done|].
      pose proof Hyin as Hyin'.
      apply elem_of_cons in Hyin as [?|Hyin]; [done|].
      apply Ha; [left|done|by apply Hx|by apply Hy]. }
    f_equal. apply IH; [done|by apply Permutation_cons_inv in Hp|].
    intros a b Hin Hb. apply Ha; by right.
Qed.

Lemma NoDup_fmap_eq {A B : Type} (f : A → B) (l : list A) (x y : A) :
  NoDup (f <$> l) → x ∈ l → y ∈ l → f x = f y → x = y.
Proof.
  induction l as [|z l IH]; csimpl; [by intros _ ?%elem_of_nil|].
  rewrite NoDup_cons. intros [Hz Hl] Hx Hy Hf.
  apply elem_of_cons in Hx as [->|Hx]; apply elem_of_cons in Hy as [->|Hy].
  - done.
  - destruct Hz. rewrite Hf. by apply list_elem_of_fmap_2.
  - destruct Hz. rewrite <- Hf. by apply list_elem_of_fmap_2.
  - by apply IH.
Qed.

(** With unique names, the listing is the same for every order of the
    rows in the table. *)
Lemma get_students_order_independent (w1 w2 : world) (t1 t2 : table student_row) :
  students (disk w1) = Some t1 → students (disk w2) = Some t2 →
  rows t1 ≡ₚ rows t2 → NoDup (s_name <$> rows t1) →
  result get_students w1 = result get_students w2.
Proof.
  intros Ht1 Ht2 Hp Hnd. unfold result. rewrite !get_students_run.
  unfold select_students. rewrite Ht1, Ht2. simpl. do 2 f_equal.
  apply (sorted_perm_eq (λ a b, name_asc a b = true)).
  - apply order_by_sorted; unfold name_asc;
      [intros x y; apply text_le_total|intros x y z; apply text_le_trans].
  - apply order_by_sorted; unfold name_asc;
      [intros x y; apply text_le_total|intros x y z; apply text_le_trans].
  - by rewrite !order_by_perm.
  - intros x y. rewrite !order_by_perm. intros Hx Hy Hxy Hyx.
    apply (NoDup_fmap_eq s_name (rows t1)); [done..|].
    by apply text_le_antisym.
Qed.

(** ** Listing the records of a student *)

Lemma date_desc_total (x y : record_row) :
  date_desc x y = false → date_desc y x = true.
Proof. unfold date_desc. apply text_le_total. Qed.

Lemma date_desc_trans (x y z : record_row) :
  date_desc x y = true → date_desc y z = true → date_desc x z = true.
Proof. unfold date_desc. intros Hxy Hyz. by eapply text_le_trans. Qed.

(** C5: of two records of a student whose dates are [YYYY-MM-DD] texts of
    different days, [get_records] lists the one with the later day before
    the one with the earlier day, whatever their order in the table. *)
Theorem get_records_latest_first (w : world) (sid : Z) (r1 r2 : record_row)
    (d1 d2 : Z * Z * Z) :
  r1 ∈ record_rows (disk w) → r2 ∈ record_rows (disk w) →
  r_student_id r1 = sid → r_student_id r2 = sid →
  parse_ymd (r_date r1) = Some d1 → parse_ymd (r_date r2) = Some d2 →
  earlier d2 d1 →
  ∃ l, result (get_records sid) w = Return l ∧
       comes_before (r_id r1, r_date r1, r_content r1)
                    (r_id r2, r_date r2, r_content r2) l.
Proof.
  intros H1 H2 Hs1 Hs2 Hd1 Hd2 He.
  unfold result. rewrite get_records_run.
  unfold record_rows in H1, H2. unfold select_records.
  destruct (records (disk w)) as [t|]; [|by apply elem_of_nil in H1]. simpl.
  eexists. split; [done|].
  apply (comes_before_fmap (λ r, (r_id r, r_date r, r_content r))).
  apply sorted_comes_before with (R := λ a b, date_desc a b = true).
  - apply order_by_sorted; [apply date_desc_total|apply date_desc_trans].
  - apply text_le_refl.
  - rewrite order_by_perm. by apply list_elem_of_filter.
  - rewrite order_by_perm. by apply list_elem_of_filter.
  - unfold date_desc.
    destruct (parse_ymd_order _ _ _ _ Hd2 Hd1 He) as [_ ->]. done.
Qed.

(** ** Adding a record *)

(** C6: for an existing student, [add_record] returns when no connection
    holds the write lock, and whenever it has returned, [get_records] for
    that student returns a tuple with exactly the date and the content
    given. *)
Theorem add_record_roundtrip (w : world) (sid : Z) (date content : string) :
  initialized (disk w) → sid ∈ student_ids (disk w) →
  (unlocked w → result (add_record sid date content) w = Return ()) ∧
  (result (add_record sid date content) w = Return () →
   ∃ l rid,
     result (get_records sid) (after (add_record sid date content) w) = Return l ∧
     (rid, date, content) ∈ l).
Proof.
  intros [_ [t Ht]] _. unfold result, after.
  rewrite add_record_run. unfold insert_record. rewrite Ht. simpl.
  destruct (decide (busy w)) as [Hb|Hb]; simpl.
  { split; [|done]. intros Hu. by destruct (unlocked_not_busy w Hu). }
  split; [done|]. intros _.
  rewrite get_records_run. unfold select_records. simpl.
  eexists. exists (new_rowid (r_id <$> rows t) (seq t)). split; [done|].
  apply (list_elem_of_fmap_2 (λ r, (r_id r, r_date r, r_content r)) _
           (RecordRow (new_rowid (r_id <$> rows t) (seq t)) sid date content)).
  rewrite order_by_perm. apply list_elem_of_filter. split; [done|].
  apply elem_of_app. right. by apply list_elem_of_singleton.
Qed.

(** ** Deleting what is not there *)

Lemma filter_absent {A : Type} (key : A → Z) (id : Z) (l : list A) :
  id ∉ key <$> l → filter (λ r, key r ≠ id) l = l.
Proof.
  induction l as [|x l IH]; [done|]. rewrite fmap_cons, not_elem_of_cons.
  intros [Hx Hl]. rewrite filter_cons_True by done. by rewrite IH.
Qed.

(** While no connection holds the write lock, [delete_student] and
    [delete_record] with an id, one that [sqlite3] can bind, that is not in
    their table return without raising and leave both tables as they
    were. *)
Lemma delete_absent_unlocked (w : world) (id : Z) :
  initialized (disk w) → unlocked w → int64 id →
  (id ∉ student_ids (disk w) →
   result (delete_student id) w = Return () ∧
   disk (after (delete_student id) w) = disk w) ∧
  (id ∉ record_ids (disk w) →
   result (delete_record id) w = Return () ∧
   disk (after (delete_record id) w) = disk w).
Proof.
  intros [[st Hst] [rt Hrt]] Hu%unlocked_not_busy _.
  unfold result, after, student_ids, record_ids, student_rows, record_rows.
  rewrite Hst, Hrt. split; intros Hid.
  - rewrite delete_student_run. unfold delete_student_stmt. rewrite Hst. simpl.
    rewrite decide_False by done. simpl.
    rewrite filter_absent by done.
    destruct (disk w) as [s r]; simpl in *; subst. by destruct st.
  - rewrite delete_record_run. unfold delete_record_stmt. rewrite Hrt. simpl.
    rewrite decide_False by done. simpl.
    rewrite filter_absent by done.
    destruct (disk w) as [s r]; simpl in *; subst. by destruct rt.
Qed.

(** C7: on a new file, after "Amy" has been added and a second
    [add_student "Amy"] has been turned down, [delete_student 9] and
    [delete_record 9], of ids that are in no table, both raise
    OperationalError: the connection that the second [add_student] left
    open holds the write lock. *)
Theorem delete_absent_raises_after_duplicate :
  let w := after (init_db;; add_student "Amy";; add_student "Amy") fresh_world in
  (9 ∉ student_ids (disk w)) ∧ (9 ∉ record_ids (disk w)) ∧
  result (delete_student 9) w = Raise OperationalError ∧
  result (delete_record 9) w = Raise OperationalError.
Proof.
  cbv zeta. split; [compute_done|]. split; [compute_done|]. by vm_compute.
Qed.

(** ** Adding a student *)

Lemma absent_name_count (rs : list student_row) (name : string) :
  name ∉ s_name <$> rs →
  filter (λ p, p.2 = name) ((λ r, (s_id r, s_name r)) <$> rs) = [].
Proof.
  induction rs as [|r rs IH]; csimpl; [done|].
  rewrite not_elem_of_cons. intros [Hr Hrs].
  rewrite filter_cons_False by (simpl; congruence). by apply IH.
Qed.

Lemma unique_name_count (rs : list student_row) (name : string) :
  NoDup (s_name <$> rs) → name ∈ s_name <$> rs →
  length (filter (λ p, p.2 = name) ((λ r, (s_id r, s_name r)) <$> rs)) = 1%nat.
Proof.
  induction rs as [|r rs IH]; csimpl; intros Hnd Hin.
  - by apply elem_of_nil in Hin.
  - apply NoDup_cons in Hnd as [Hr Hnd].
    destruct (decide (s_name r = name)) as [<-|Hne].
    + rewrite filter_cons_True by done. by rewrite absent_name_count.
    + rewrite filter_cons_False by done.
      apply elem_of_cons in Hin as [Hin|Hin]; [done|]. by apply IH.
Qed.

Lemma add_student_fresh (w : world) (name : string) :
  is_Some (students (disk w)) → unlocked w → name ∉ student_names (disk w) →
  result (add_student name) w = Return true ∧
  name ∈ student_names (disk (after (add_student name) w)).
Proof.
  intros [t Ht] Hu%unlocked_not_busy.
  unfold student_names, student_rows, result, after.
  rewrite add_student_run. unfold insert_student. rewrite Ht. intros Hn.
  rewrite decide_False by done. simpl. rewrite decide_False by done. simpl.
  split; [done|].
  rewrite fmap_app. apply elem_of_app. right. by apply list_elem_of_singleton.
Qed.

(** While no connection holds the write lock, [add_student] with a name
    that the store already has returns [False] (a fresh name gives [True],
    see [add_student_fresh]) and leaves the file as it was: [get_students]
    returns what it returned before, with exactly one entry of that
    name. *)
Lemma add_student_taken (w : world) (name : string) :
  unlocked w → unique_names (disk w) → name ∈ student_names (disk w) →
  result (add_student name) w = Return false ∧
  disk (after (add_student name) w) = disk w ∧
  result get_students (after (add_student name) w) = result get_students w ∧
  ∃ l, result get_students (after (add_student name) w) = Return l ∧
       length (filter (λ p, p.2 = name) l) = 1%nat.
Proof.
  unfold unique_names, student_names, student_rows, result, after.
  intros Hu%unlocked_not_busy.
  destruct (students (disk w)) as [t|] eqn:Ht; [|by intros _ ?%elem_of_nil].
  intros Hnd Hin.
  rewrite add_student_run. unfold insert_student. rewrite Ht.
  rewrite decide_True by done. simpl. rewrite decide_False by done. simpl.
  rewrite !get_students_run. unfold select_students. simpl. rewrite Ht. simpl.
  repeat split; [].
  eexists. split; [done|].
  rewrite order_by_perm. by apply unique_name_count.
Qed.

(** The file is as it was after [add_student] with a name that the store
    already has, whether the call returns [False] or raises. *)
Lemma add_student_taken_writes_nothing (w : world) (name : string) :
  name ∈ student_names (disk w) →
  disk (after (add_student name) w) = disk w ∧
  result (add_student name) w =
    if decide (busy w) then Raise OperationalError else Return false.
Proof.
  unfold student_names, student_rows, result, after.
  destruct (students (disk w)) as [t|] eqn:Ht; [|by intros ?%elem_of_nil].
  intros Hin. rewrite add_student_run. unfold insert_student. rewrite Ht.
  rewrite decide_True by done. simpl. by destruct (decide (busy w)).
Qed.

(** C3: on a new file, "Amy" is added; a second [add_student "Amy"]
    returns [False] and leaves the listing with its one entry; a third
    [add_student "Amy"] raises OperationalError instead of returning
    [False]: the connection that the second call left open holds the write
    lock. *)
Theorem add_student_duplicate_raises :
  let w := after (init_db;; add_student "Amy") fresh_world in
  result (add_student "Amy") w = Return false ∧
  result get_students (after (add_student "Amy") w) = Return [(1, "Amy")] ∧
  result (add_student "Amy") (after (add_student "Amy") w) = Raise OperationalError ∧
  result get_students (after (add_student "Amy") (after (add_student "Amy") w)) =
    Return [(1, "Amy")].
Proof. by vm_compute. Qed.

(** ** Creating the tables *)

Lemma times_init_db (n : nat) (w : world) :
  ∃ w', times (S n) init_db w = (Return (), w') ∧
        disk w' = Database (Some (default empty_table (students (disk w))))
                           (Some (default empty_table (records (disk w)))).
Proof.
  revert w. induction n as [|n IH]; intros w.
  - eexists. unfold times, mbind, py_bind, mret, py_ret.
    rewrite init_db_run. by split.
  - change (times (S (S n)) init_db w)
      with (match init_db w with
            | (Return _, w') => times (S n) init_db w'
            | (Raise e, w') => (Raise e, w')
            end).
    rewrite init_db_run.
    destruct (IH (closed_world
      (Database (Some (default empty_table (students (disk w))))
                (Some (default empty_table (records (disk w))))) w))
      as (w' & -> & Hd).
    exists w'. split; [done|]. by rewrite Hd.
Qed.

(** C8: [init_db], called once or any number of times in a row, returns,
    keeps every table that exists as it is with all its rows, and leaves
    both tables created; calling it again changes nothing more. *)
Theorem init_db_idempotent (w : world) (n : nat) :
  result (times (S n) init_db) w = Return () ∧
  initialized (disk (after (times (S n) init_db) w)) ∧
  (∀ t, students (disk w) = Some t →
        students (disk (after (times (S n) init_db) w)) = Some t) ∧
  (∀ t, records (disk w) = Some t →
        records (disk (after (times (S n) init_db) w)) = Some t) ∧
  student_rows (disk (after (times (S n) init_db) w)) = student_rows (disk w) ∧
  record_rows (disk (after (times (S n) init_db) w)) = record_rows (disk w) ∧
  disk (after (times (S n) init_db) w) = disk (after init_db w).
Proof.
  unfold result, after.
  destruct (times_init_db n w) as (w' & -> & Hd). simpl.
  rewrite init_db_run, Hd. simpl.
  unfold initialized, student_rows, record_rows. simpl.
  split; [done|]. split; [by split|].
  split; [by intros t ->|]. split; [by intros t ->|].
  by destruct (students (disk w)), (records (disk w)).
Qed.

(** ** Row ids *)

Lemma new_rowid_gt_seq (ids : list Z) (sq : Z) : sq < new_rowid ids sq.
Proof. unfold new_rowid. lia. Qed.

Lemma new_rowid_gt_ids (ids : list Z) (sq : Z) (i : Z) :
  i ∈ ids → i < new_rowid ids sq.
Proof.
  unfold new_rowid, max_rowid. destruct ids as [|j ids]; [by intros ?%elem_of_nil|].
  intros Hi. assert (i ≤ foldr Z.max j ids); [|lia].
  clear sq. revert j Hi. induction ids as [|k ids IH]; intros j Hi; simpl.
  - apply list_elem_of_singleton in Hi. lia.
  - apply elem_of_cons in Hi as [->|Hi].
    + specialize (IH j (list_elem_of_here _ _)). lia.
    + apply elem_of_cons in Hi as [->|Hi]; [lia|].
      specialize (IH j (list_elem_of_further _ _ _ Hi)). lia.
Qed.

Section table_step.
Context {A : Type} (key : A → Z).

Lemma table_step_seq_mono (o o' : option (table A)) :
  table_step key o o' → seq_of o ≤ seq_of o'.
Proof.
  destruct 1 as [o| |t r Hr|t P dec]; simpl; try lia.
  rewrite Hr. pose proof (new_rowid_gt_seq (key <$> rows t) (seq t)). lia.
Qed.

Lemma table_step_new_id (o o' : option (table A)) (i : Z) :
  table_step key o o' → i ∈ ids_of key o' → i ∉ ids_of key o → seq_of o < i.
Proof.
  destruct 1 as [o| |t r Hr|t P dec]; simpl; intros Hi Hn.
  - done.
  - by apply elem_of_nil in Hi.
  - rewrite fmap_app in Hi. apply elem_of_app in Hi as [Hi|Hi]; [done|].
    apply list_elem_of_singleton in Hi as ->. rewrite Hr.
    apply new_rowid_gt_seq.
  - destruct Hn. apply list_elem_of_fmap in Hi as (x & -> & Hx).
    apply list_elem_of_filter in Hx as [_ Hx]. by apply list_elem_of_fmap_2.
Qed.

Lemma table_step_bounded (o o' : option (table A)) :
  table_step key o o' →
  (∀ i, i ∈ ids_of key o → i ≤ seq_of o) →
  ∀ i, i ∈ ids_of key o' → i ≤ seq_of o'.
Proof.
  intros Hstep Hb i Hi.
  destruct (decide (i ∈ ids_of key o)) as [Hin|Hn].
  - pose proof (table_step_seq_mono _ _ Hstep). specialize (Hb i Hin). lia.
  - pose proof (table_step_new_id _ _ _ Hstep Hi Hn) as Hlt.
    destruct Hstep as [o| |t r Hr|t P dec]; simpl in *.
    + done.
    + by apply elem_of_nil in Hi.
    + rewrite fmap_app in Hi. apply elem_of_app in Hi as [Hi|Hi]; [done|].
      apply list_elem_of_singleton in Hi as ->. lia.
    + destruct Hn. apply list_elem_of_fmap in Hi as (x & -> & Hx).
      apply list_elem_of_filter in Hx as [_ Hx]. by apply list_elem_of_fmap_2.
Qed.
End table_step.

Ltac run_call :=
  unfold perform;
  rewrite ?init_db_run, ?add_student_run, ?get_students_run, ?delete_student_run,
    ?add_record_run, ?get_records_run, ?delete_record_run;
  unfold insert_student, select_students, delete_student_stmt, insert_record,
    select_records, delete_record_stmt, closed_world, leaked_world.

Ltac table_step_case :=
  first [ apply step_same
        | apply step_create
        | by apply (step_insert s_id _ (StudentRow _ _))
        | by apply (step_insert r_id _ (RecordRow _ _ _ _))
        | apply step_delete ].

Lemma perform_table_step (c : call) (w : world) :
  table_step s_id (students (disk w)) (students (disk (perform c w))) ∧
  table_step r_id (records (disk w)) (records (disk (perform c w))).
Proof.
  destruct w as [[[st|] [rt|]] cs nh], c; run_call; simpl;
    repeat case_match; simplify_eq/=; split; table_step_case.
Qed.

Lemma perform_all_snoc (cs : list call) (c : call) (w : world) :
  perform_all (cs ++ [c]) w = perform c (perform_all cs w).
Proof. unfold perform_all. by rewrite foldl_app. Qed.

Lemma perform_all_seq_mono (cs : list call) (w : world) :
  students_seq (disk w) ≤ students_seq (disk (perform_all cs w)) ∧
  records_seq (disk w) ≤ records_seq (disk (perform_all cs w)).
Proof.
  induction cs as [|c cs IH] using rev_ind; [done|].
  rewrite perform_all_snoc.
  destruct (perform_table_step c (perform_all cs w)) as [Hs Hr].
  apply table_step_seq_mono in Hs, Hr.
  unfold students_seq, records_seq, seq_of in *. lia.
Qed.

Lemma student_ids_of (db : database) : student_ids db = ids_of s_id (students db).
Proof. unfold student_ids, student_rows. by destruct (students db). Qed.

Lemma record_ids_of (db : database) : record_ids db = ids_of r_id (records db).
Proof. unfold record_ids, record_rows. by destruct (records db). Qed.

Lemma perform_sequence_ok (c : call) (w : world) :
  sequence_ok (disk w) → sequence_ok (disk (perform c w)).
Proof.
  unfold sequence_ok. rewrite !student_ids_of, !record_ids_of.
  intros [Hs Hr]. destruct (perform_table_step c w) as [Hss Hsr].
  split.
  - exact (table_step_bounded s_id _ _ Hss Hs).
  - exact (table_step_bounded r_id _ _ Hsr Hr).
Qed.

Lemma perform_all_sequence_ok (cs : list call) (w : world) :
  sequence_ok (disk w) → sequence_ok (disk (perform_all cs w)).
Proof.
  intros Hw. induction cs as [|c cs IH] using rev_ind; [done|].
  rewrite perform_all_snoc. by apply perform_sequence_ok.
Qed.

(** C10: along any sequence of calls, from a store whose row ids are within
    what AUTOINCREMENT has handed out, an id that a call newly puts into a
    table is greater than every id that was in that table in any earlier
    state; so the id of a deleted student or record is never given again. *)
Theorem ids_never_reused (w : world) (earlier_calls later_calls : list call) (c : call) :
  sequence_ok (disk w) →
  let w1 := perform_all earlier_calls w in
  let w2 := perform_all later_calls w1 in
  let w3 := perform c w2 in
  (∀ i j, i ∈ student_ids (disk w3) → i ∉ student_ids (disk w2) →
          j ∈ student_ids (disk w1) → j < i) ∧
  (∀ i j, i ∈ record_ids (disk w3) → i ∉ record_ids (disk w2) →
          j ∈ record_ids (disk w1) → j < i).
Proof.
  intros Hw. cbv zeta.
  destruct (perform_all_sequence_ok earlier_calls w Hw) as [Hs1 Hr1].
  destruct (perform_all_seq_mono later_calls (perform_all earlier_calls w))
    as [Hs12 Hr12].
  destruct (perform_table_step c
              (perform_all later_calls (perform_all earlier_calls w))) as [Hs Hr].
  split; intros i j; rewrite ?student_ids_of, ?record_ids_of; intros Hi Hn Hj.
  - rewrite <- student_ids_of in Hj.
    pose proof (table_step_new_id s_id _ _ i Hs Hi Hn) as Hlt.
    specialize (Hs1 j Hj). unfold students_seq, seq_of in *. lia.
  - rewrite <- record_ids_of in Hj.
    pose proof (table_step_new_id r_id _ _ i Hr Hi Hn) as Hlt.
    specialize (Hr1 j Hj). unfold records_seq, seq_of in *. lia.
Qed.

(** ** Deleting a student, and the records that referenced it *)

Lemma delete_student_removes_student (w : world) (id : Z) :
  unlocked w → int64 id →
  id ∉ student_ids (disk (after (delete_student id) w)).
Proof.
  intros Hu%unlocked_not_busy _.
  unfold after, student_ids, student_rows. rewrite delete_student_run.
  unfold delete_student_stmt.
  destruct (students (disk w)) as [t|] eqn:Ht; simpl.
  - rewrite decide_False by done. simpl.
    intros (r & Hr & Hin)%list_elem_of_fmap.
    by apply list_elem_of_filter in Hin as [Hne _].
  - rewrite Ht. by intros ?%elem_of_nil.
Qed.

(** Through a connection of this program, [PRAGMA foreign_keys] off, the
    DELETE does not touch the records table. *)
Lemma delete_student_keeps_records (w : world) (id : Z) :
  records (disk (after (delete_student id) w)) = records (disk w).
Proof.
  unfold after. rewrite delete_student_run. unfold delete_student_stmt.
  destruct (students (disk w)); [|done]. by destruct (decide (busy w)).
Qed.

(** With [PRAGMA foreign_keys] on, the same statement leaves no record of a
    deleted student. *)
Lemma delete_student_stmt_cascade (id : Z) (db db' : database) :
  id ∈ student_ids db →
  delete_student_stmt true id db = Return db' →
  ∀ r, r ∈ record_rows db' → r_student_id r ≠ id.
Proof.
  unfold delete_student_stmt, student_ids, student_rows, record_rows.
  destruct (students db) as [t|]; [|by intros ?%elem_of_nil].
  intros Hid. rewrite bool_decide_true by done. simpl. intros [= <-]. simpl.
  destruct (records db) as [rt|]; simpl; [|by intros r ?%elem_of_nil].
  by intros r [Hr _]%list_elem_of_filter.
Qed.

(** C1: on a new file, after a student (id 1) with two records has been
    added, [delete_student 1] takes the student out of [get_students], but
    [get_records 1] still returns both records. *)
Theorem delete_student_leaves_records :
  let w := after (init_db;; add_student "Amy";;
                  add_record 1 "2024-03-01" "Met with parent";;
                  add_record 1 "2024-03-08" "Called home") fresh_world in
  result get_students w = Return [(1, "Amy")] ∧
  result (delete_student 1) w = Return () ∧
  result get_students (after (delete_student 1) w) = Return [] ∧
  result (get_records 1) (after (delete_student 1) w) =
    Return [(2, "2024-03-08", "Called home"); (1, "2024-03-01", "Met with parent")].
Proof. vm_compute. done. Qed.

(** ** Records without a student *)

(** With [PRAGMA foreign_keys] on, the INSERT of a record for a student
    that does not exist fails. *)
Lemma insert_record_enforced (sid : Z) (date content : string) (db : database) :
  is_Some (records db) → sid ∉ student_ids db →
  insert_record true sid date content db = Raise IntegrityError.
Proof.
  intros [t Ht] Hsid. unfold insert_record. rewrite Ht.
  by rewrite bool_decide_true.
Qed.

(** Through a connection of this program the parent row is not looked
    for: the INSERT succeeds whenever the records table exists and no
    connection holds the write lock. *)
Lemma add_record_returns (w : world) (sid : Z) (date content : string) :
  is_Some (records (disk w)) → unlocked w → int64 sid →
  result (add_record sid date content) w = Return () ∧
  RecordRow (new_rowid (record_ids (disk w)) (records_seq (disk w))) sid date content
    ∈ record_rows (disk (after (add_record sid date content) w)).
Proof.
  intros [t Ht] Hu%unlocked_not_busy _.
  unfold result, after, record_ids, record_rows, records_seq.
  rewrite add_record_run. unfold insert_record. rewrite Ht. simpl.
  rewrite decide_False by done. simpl.
  split; [done|]. apply elem_of_app. right. by apply list_elem_of_singleton.
Qed.

(** C2: on a new file with both tables created and no student at all,
    [add_record 7 ...] returns normally and the file then holds a record
    whose [student_id] 7 is the id of no student. *)
Theorem add_record_without_student :
  let w := after init_db fresh_world in
  student_ids (disk w) = [] ∧
  result (add_record 7 "2024-03-01" "Met with parent") w = Return () ∧
  record_rows (disk (after (add_record 7 "2024-03-01" "Met with parent") w)) =
    [RecordRow 1 7 "2024-03-01" "Met with parent"] ∧
  ¬ referential_integrity (disk (after (add_record 7 "2024-03-01" "Met with parent") w)).
Proof.
  cbv zeta. split; [done|]. split; [by vm_compute|]. split; [by vm_compute|].
  intros H. specialize (H (RecordRow 1 7 "2024-03-01" "Met with parent")).
  assert (r_student_id (RecordRow 1 7 "2024-03-01" "Met with parent") ∈ ([] : list Z))
    as Hin; [|by apply elem_of_nil in Hin].
  apply H. vm_compute. by left.
Qed.

(** ** Connections *)

(** Every call but [add_student] closes the connection it opened when its
    statement succeeds, as it does once the tables are there and while no
    connection holds the write lock. *)
Lemma returned_call_closes (w : world) (c : call) :
  (∀ name, c ≠ AddStudent name) → initialized (disk w) → unlocked w →
  conns (perform c w) !! next_handle w = None.
Proof.
  intros Hc [[st Hst] [rt Hrt]] Hu%unlocked_not_busy.
  destruct c; [| by destruct (Hc name) | | | | |];
    run_call; rewrite ?Hst, ?Hrt; simpl; rewrite ?decide_False by done;
    simpl; apply lookup_delete_eq.
Qed.

Lemma add_student_fresh_closes (w : world) (name : string) :
  is_Some (students (disk w)) → unlocked w → name ∉ student_names (disk w) →
  conns (after (add_student name) w) !! next_handle w = None.
Proof.
  intros [t Ht] Hu%unlocked_not_busy. unfold student_names, student_rows, after.
  rewrite add_student_run. unfold insert_student. rewrite Ht. intros Hn.
  rewrite decide_False by done. simpl. rewrite decide_False by done. simpl.
  apply lookup_delete_eq.
Qed.

(** The [except] branch of [add_student] returns with the connection, and
    the transaction the INSERT opened, still there. *)
Lemma add_student_duplicate_leaks (w : world) (name : string) :
  unlocked w → name ∈ student_names (disk w) →
  conns (after (add_student name) w) !! next_handle w =
    Some (Connection false (Some (disk w))).
Proof.
  unfold student_names, student_rows, after. intros Hu%unlocked_not_busy.
  destruct (students (disk w)) as [t|] eqn:Ht; [|by intros ?%elem_of_nil].
  intros Hin. rewrite add_student_run. unfold insert_student. rewrite Ht.
  rewrite decide_True by done. simpl. rewrite decide_False by done. simpl.
  apply lookup_insert_eq.
Qed.

(** C9: on a new file, after "Amy" has been added (no connection is open
    then), a second [add_student "Amy"] returns [False] and leaves the
    connection it opened, handle 2, open with its transaction. *)
Theorem add_student_duplicate_keeps_connection :
  let w := after (init_db;; add_student "Amy") fresh_world in
  conns w = ∅ ∧
  next_handle w = 2%nat ∧
  result (add_student "Amy") w = Return false ∧
  conns (after (add_student "Amy") w) !! 2%nat =
    Some (Connection false (Some (disk w))).
Proof. vm_compute. done. Qed.

(** ** The constraints that every call keeps *)

Lemma NoDup_fmap_filter {A B : Type} (f : A → B) (P : A → Prop)
    `{∀ x, Decision (P x)} (l : list A) :
  NoDup (f <$> l) → NoDup (f <$> filter P l).
Proof.
  induction l as [|x l IH]; csimpl; [done|].
  rewrite NoDup_cons. intros [Hx Hl].
  rewrite filter_cons. case_decide; csimpl; [|by apply IH].
  apply NoDup_cons. split; [|by apply IH].
  intros (y & Hy & Hin)%list_elem_of_fmap. apply Hx.
  apply list_elem_of_filter in Hin as [_ Hin]. rewrite Hy.
  by apply list_elem_of_fmap_2.
Qed.

Lemma table_step_primary_key {A : Type} (key : A → Z) (o o' : option (table A)) :
  table_step key o o' → NoDup (ids_of key o) → NoDup (ids_of key o').
Proof.
  destruct 1 as [o| |t r Hr|t P dec]; simpl; intros Hnd.
  - done.
  - constructor.
  - rewrite fmap_app. apply NoDup_app. split; [done|]. split.
    + intros i Hi ->%list_elem_of_singleton.
      pose proof (new_rowid_gt_ids _ (seq t) _ Hi). lia.
    + apply NoDup_singleton.
  - by apply NoDup_fmap_filter.
Qed.

Lemma perform_primary_keys (c : call) (w : world) :
  primary_keys (disk w) → primary_keys (disk (perform c w)).
Proof.
  unfold primary_keys. rewrite !student_ids_of, !record_ids_of.
  destruct (perform_table_step c w) as [Hs Hr]. intros [Hns Hnr].
  split; by eapply table_step_primary_key.
Qed.

Lemma perform_unique_names (c : call) (w : world) :
  unique_names (disk w) → unique_names (disk (perform c w)).
Proof.
  unfold unique_names, student_names, student_rows.
  destruct w as [[[st|] rt] cs nh], c; run_call; simpl;
    repeat case_match; simplify_eq/=; try done; intros Hnd.
  - rewrite fmap_app. apply NoDup_app. split; [done|]. split.
    + by intros x Hx ->%list_elem_of_singleton.
    + apply NoDup_singleton.
  - by apply NoDup_fmap_filter.
Qed.

(** From a new file, whatever the calls, names and row ids are unique and
    no row id exceeds what AUTOINCREMENT has handed out. *)
Lemma reachable_constraints (cs : list call) :
  unique_names (disk (perform_all cs fresh_world)) ∧
  primary_keys (disk (perform_all cs fresh_world)) ∧
  sequence_ok (disk (perform_all cs fresh_world)).
Proof.
  induction cs as [|c cs (Hu & Hp & Hs)] using rev_ind.
  - split; [constructor|]. split; [split; constructor|].
    split; by intros i ?%elem_of_nil.
  - rewrite perform_all_snoc.
    auto using perform_unique_names, perform_primary_keys, perform_sequence_ok.
Qed.

(** With [PRAGMA foreign_keys] on, the two statements that could break the
    link between a record and its student keep it. *)
Lemma insert_record_fk_integrity (sid : Z) (date content : string) (db db' : database) :
  referential_integrity db →
  insert_record true sid date content db = Return db' →
  referential_integrity db'.
Proof.
  unfold referential_integrity, insert_record, record_rows.
  destruct (records db) as [t|]; [|done]. simpl.
  case_bool_decide as Hsid; [done|].
  intros Hri [= <-] r. simpl.
  intros [Hr|Hr]%elem_of_app; [by apply Hri|].
  by apply list_elem_of_singleton in Hr as ->.
Qed.

Lemma delete_student_fk_integrity (id : Z) (db db' : database) :
  referential_integrity db →
  delete_student_stmt true id db = Return db' →
  referential_integrity db'.
Proof.
  unfold referential_integrity, delete_student_stmt, student_ids, student_rows,
    record_rows.
  destruct (students db) as [st|] eqn:Hst; [|done]. simpl.
  intros Hri [= <-] r. simpl. case_bool_decide as Hid.
  - destruct (records db) as [rt|]; simpl; [|by intros ?%elem_of_nil].
    intros [Hne Hr]%list_elem_of_filter.
    apply Hri, list_elem_of_fmap_1 in Hr as (s & Hs & Hin).
    rewrite Hs. apply list_elem_of_fmap_2, list_elem_of_filter.
    split; [congruence|done].
  - rewrite (filter_absent s_id) by done. apply Hri.
Qed.

(** ** The theorems at work on a small class *)

Example classroom_students :
  result get_students classroom = Return [(2, "Amy"); (1, "Zoe")].
Proof. by vm_compute. Qed.

Example classroom_records :
  result (get_records 1) classroom =
    Return [(2, "2024-02-05", "Met with parent"); (1, "2024-01-10", "Late for class")].
Proof. by vm_compute. Qed.

Lemma classroom_unlocked : unlocked classroom.
Proof.
  unfold unlocked. assert (conns classroom = ∅) as -> by by vm_compute.
  apply map_Forall_empty.
Qed.

Lemma get_students_sorted_witness :
  students (disk classroom) = Some (Table [StudentRow 1 "Zoe"; StudentRow 2 "Amy"] 2) ∧
  ∃ l, result get_students classroom = Return l ∧
       l ≡ₚ (λ r, (s_id r, s_name r)) <$> [StudentRow 1 "Zoe"; StudentRow 2 "Amy"] ∧
       StronglySorted (λ a b, text_le a.2 b.2 = true) l.
Proof.
  assert (students (disk classroom) =
          Some (Table [StudentRow 1 "Zoe"; StudentRow 2 "Amy"] 2)) as Ht
    by (vm_compute; reflexivity).
  split; [exact Ht|].
  exact (get_students_sorted classroom _ Ht).
Defined.

Lemma get_records_latest_first_witness :
  ∃ l, result (get_records 1) classroom = Return l ∧
       comes_before (2, "2024-02-05", "Met with parent")
                    (1, "2024-01-10", "Late for class") l.
Proof.
  apply (get_records_latest_first classroom 1
           (RecordRow 2 1 "2024-02-05" "Met with parent")
           (RecordRow 1 1 "2024-01-10" "Late for class")
           (2024, 2, 5) (2024, 1, 10)).
  - compute_done.
  - compute_done.
  - reflexivity.
  - reflexivity.
  - reflexivity.
  - reflexivity.
  - unfold earlier. lia.
Defined.

Lemma add_record_roundtrip_witness :
  result (add_record 2 "2024-03-01" "Met with parent") classroom = Return () ∧
  ∃ l rid,
    result (get_records 2)
      (after (add_record 2 "2024-03-01" "Met with parent") classroom) = Return l ∧
    (rid, "2024-03-01", "Met with parent") ∈ l.
Proof.
  destruct (add_record_roundtrip classroom 2 "2024-03-01" "Met with parent")
    as [Hret Hlist].
  - split; vm_compute; eauto.
  - compute_done.
  - split; [exact (Hret classroom_unlocked)|].
    exact (Hlist (Hret classroom_unlocked)).
Defined.

Lemma ids_never_reused_witness :
  let w1 := perform_all [InitDb; AddStudent "Zoe"; AddRecord 1 "2024-01-10" "Late"]
              fresh_world in
  let w2 := perform_all [DeleteRecord 1; DeleteStudent 1] w1 in
  let w3 := perform (AddStudent "Amy") w2 in
  (∀ i j, i ∈ student_ids (disk w3) → i ∉ student_ids (disk w2) →
          j ∈ student_ids (disk w1) → j < i) ∧
  (∀ i j, i ∈ record_ids (disk w3) → i ∉ record_ids (disk w2) →
          j ∈ record_ids (disk w1) → j < i).
Proof.
  apply (ids_never_reused fresh_world
           [InitDb; AddStudent "Zoe"; AddRecord 1 "2024-01-10" "Late"]
           [DeleteRecord 1; DeleteStudent 1] (AddStudent "Amy")).
  split; intros i Hi; vm_compute in Hi; by apply elem_of_nil in Hi.
Defined.


(** * More about the store *)

(** ** Filtering and sorting commute *)

Section order_by_filter.
Context {A : Type} (before : A → A → bool) (P : A → Prop) `{!∀ x, Decision (P x)}.
Hypothesis before_total : ∀ x y, before x y = false → before y x = true.
Hypothesis before_trans :
  ∀ x y z, before x y = true → before y z = true → before x z = true.

Lemma insert_sorted_first (x : A) (l : list A) :
  Forall (λ y, before x y = true) l → insert_sorted before x l = x :: l.
Proof. destruct 1 as [|y l Hy _]; simpl; [done|]. by rewrite Hy. Qed.

Lemma filter_insert_sorted (x : A) (l : list A) :
  StronglySorted (λ a b, before a b = true) l →
  filter P (insert_sorted before x l) =
  if decide (P x) then insert_sorted before x (filter P l) else filter P l.
Proof.
  induction 1 as [|y l Hl IH Hy]; simpl.
  - rewrite filter_cons, filter_nil. by case_decide.
  - destruct (before x y) eqn:Hxy.
    + rewrite (filter_cons _ x). destruct (decide (P x)) as [Hx|Hx]; [|done].
      rewrite (filter_cons _ y). destruct (decide (P y)) as [Hpy|Hpy]; simpl.
      * by rewrite Hxy.
      * rewrite insert_sorted_first; [done|].
        apply Forall_forall. intros z [_ Hz]%list_elem_of_filter.
        rewrite Forall_forall in Hy. eauto.
    + rewrite !(filter_cons _ y), IH.
      destruct (decide (P y)), (decide (P x)); simpl; by rewrite ?Hxy.
Qed.

Lemma order_by_filter (l : list A) :
  filter P (order_by before l) = order_by before (filter P l).
Proof.
  induction l as [|x l IH]; simpl; [done|].
  rewrite filter_insert_sorted by by apply order_by_sorted.
  rewrite filter_cons, IH. by case_decide.
Qed.
End order_by_filter.

Lemma filter_fmap {A B : Type} (f : A → B) (P : B → Prop) `{!∀ y, Decision (P y)}
    (l : list A) :
  filter P (f <$> l) = f <$> filter (λ x, P (f x)) l.
Proof.
  induction l as [|x l IH]; csimpl; [done|].
  rewrite !filter_cons, IH. by case_decide.
Qed.

Lemma filter_comm {A : Type} (P Q : A → Prop)
    `{!∀ x, Decision (P x), !∀ x, Decision (Q x)} (l : list A) :
  filter P (filter Q l) = filter Q (filter P l).
Proof. rewrite !list_filter_filter. apply list_filter_iff. intros x. tauto. Qed.

(** ** A new student *)

(** While no connection holds the write lock, [add_student] with a name
    the store does not have returns [True]; the listing then has one entry
    more, the name under a row id that no student had, and every earlier
    entry as before; the records are untouched. *)
Theorem add_student_new (w : world) (name : string) (l : list (Z * string)) :
  unlocked w →
  result get_students w = Return l → name ∉ student_names (disk w) →
  result (add_student name) w = Return true ∧
  records (disk (after (add_student name) w)) = records (disk w) ∧
  ∃ new_id l',
    (new_id ∉ student_ids (disk w)) ∧
    result get_students (after (add_student name) w) = Return l' ∧
    l' ≡ₚ (new_id, name) :: l.
Proof.
  intros Hu%unlocked_not_busy.
  unfold result, after, student_names, student_ids, student_rows.
  rewrite get_students_run, add_student_run. unfold select_students, insert_student.
  destruct (students (disk w)) as [t|] eqn:Ht; [|done]. simpl.
  intros [= <-] Hn. rewrite decide_False by done. simpl.
  rewrite decide_False by done. simpl.
  split; [done|]. split; [done|].
  exists (new_rowid (s_id <$> rows t) (seq t)). eexists. split; [|split].
  - intros Hin. pose proof (new_rowid_gt_ids _ (seq t) _ Hin). lia.
  - rewrite get_students_run. unfold select_students. simpl. done.
  - rewrite !order_by_perm, fmap_app. simpl.
    symmetry. apply Permutation_cons_append.
Qed.

(** ** The records of one student *)

Lemma get_records_listing (w : world) (sid : Z) :
  is_Some (records (disk w)) →
  ∃ l, result (get_records sid) w = Return l ∧
       l ≡ₚ (λ r, (r_id r, r_date r, r_content r)) <$>
              filter (λ r, r_student_id r = sid) (record_rows (disk w)) ∧
       StronglySorted (λ a b, text_le b.1.2 a.1.2 = true) l ∧
       (l = [] ↔ ∀ r, r ∈ record_rows (disk w) → r_student_id r ≠ sid).
Proof.
  intros [t Ht]. unfold result, record_rows. rewrite get_records_run.
  unfold select_records. rewrite Ht. simpl.
  eexists. split; [done|]. split; [by rewrite order_by_perm|]. split.
  - apply StronglySorted_fmap with (R1 := λ a b, date_desc a b = true); [done|].
    apply order_by_sorted; [apply date_desc_total|apply date_desc_trans].
  - split.
    + intros Hnil%fmap_nil_inv r Hr Hs.
      assert (r ∈ order_by date_desc (filter (λ r, r_student_id r = sid) (rows t))) as Hin
        by (rewrite order_by_perm; by apply list_elem_of_filter).
      rewrite Hnil in Hin. by apply elem_of_nil in Hin.
    + intros Hno.
      destruct (filter _ (rows t)) as [|r l] eqn:Hf; [done|].
      assert (r ∈ filter (λ r, r_student_id r = sid) (rows t)) as Hin
        by (rewrite Hf; left).
      apply list_elem_of_filter in Hin as [Hs Hin]. by destruct (Hno r Hin).
Qed.

(** [get_records], for an id that [sqlite3] can bind, returns the records
    of that student and no others, each once, latest date text first; the
    empty list exactly when the student has no record, whether or not the
    student exists. *)
Theorem get_records_own (w : world) (sid : Z) :
  is_Some (records (disk w)) → int64 sid →
  ∃ l, result (get_records sid) w = Return l ∧
       l ≡ₚ (λ r, (r_id r, r_date r, r_content r)) <$>
              filter (λ r, r_student_id r = sid) (record_rows (disk w)) ∧
       StronglySorted (λ a b, text_le b.1.2 a.1.2 = true) l ∧
       (l = [] ↔ ∀ r, r ∈ record_rows (disk w) → r_student_id r ≠ sid).
Proof. intros Hr _. by apply get_records_listing. Qed.

(** ** Deleting one record, one student *)

(** While no connection holds the write lock, [delete_record] of an id
    that [sqlite3] can bind takes exactly that record out: for every
    student the listing afterwards is the listing before without the
    entries of that id, the others in their order; the students are
    untouched. *)
Theorem delete_record_exact (w : world) (id sid : Z) (l : list (Z * string * string)) :
  unlocked w → int64 id →
  result (get_records sid) w = Return l →
  result (delete_record id) w = Return () ∧
  students (disk (after (delete_record id) w)) = students (disk w) ∧
  result (get_records sid) (after (delete_record id) w) =
    Return (filter (λ t, t.1.1 ≠ id) l).
Proof.
  intros Hu%unlocked_not_busy _.
  unfold result, after. rewrite get_records_run, delete_record_run.
  unfold select_records, delete_record_stmt.
  destruct (records (disk w)) as [t|] eqn:Ht; [|done]. simpl.
  rewrite decide_False by done. simpl.
  intros [= <-]. split; [done|]. split; [done|].
  rewrite get_records_run. unfold select_records. simpl. f_equal.
  rewrite (filter_fmap (λ r, (r_id r, r_date r, r_content r))). simpl. f_equal.
  rewrite (order_by_filter date_desc (λ r, r_id r ≠ id)
             date_desc_total date_desc_trans).
  f_equal. apply filter_comm.
Qed.

(** While no connection holds the write lock, [delete_student] of an id
    that [sqlite3] can bind takes exactly that student out of the listing,
    the others staying in their order. *)
Theorem delete_student_exact (w : world) (id : Z) (l : list (Z * string)) :
  unlocked w → int64 id →
  result get_students w = Return l →
  result (delete_student id) w = Return () ∧
  result get_students (after (delete_student id) w) =
    Return (filter (λ p, p.1 ≠ id) l).
Proof.
  intros Hu%unlocked_not_busy _.
  unfold result, after. rewrite get_students_run, delete_student_run.
  unfold select_students, delete_student_stmt.
  destruct (students (disk w)) as [t|] eqn:Ht; [|done]. simpl.
  rewrite decide_False by done. simpl.
  intros [= <-]. split; [done|].
  rewrite get_students_run. unfold select_students. simpl. f_equal.
  rewrite (filter_fmap (λ r, (s_id r, s_name r))). simpl. f_equal.
  symmetry. apply (order_by_filter name_asc (λ r, s_id r ≠ id)); unfold name_asc.
  - intros x y. apply text_le_total.
  - intros x y z. apply text_le_trans.
Qed.

(** ** Adding a record changes nothing else *)

(** While no connection holds the write lock, [add_record] for an id that
    [sqlite3] can bind adds one entry, with the given date and content, to
    the listing of its student; the listing of every other student and the
    students are as before. *)
Theorem add_record_frame (w : world) (sid : Z) (date content : string)
    (l : list (Z * string * string)) :
  unlocked w → int64 sid →
  result (get_records sid) w = Return l →
  result (add_record sid date content) w = Return () ∧
  students (disk (after (add_record sid date content) w)) = students (disk w) ∧
  (∃ new_id l',
     (new_id ∉ record_ids (disk w)) ∧
     result (get_records sid) (after (add_record sid date content) w) = Return l' ∧
     l' ≡ₚ (new_id, date, content) :: l) ∧
  ∀ other, other ≠ sid →
    result (get_records other) (after (add_record sid date content) w) =
    result (get_records other) w.
Proof.
  intros Hu%unlocked_not_busy _.
  unfold result, after, record_ids, record_rows.
  rewrite get_records_run, add_record_run. unfold select_records, insert_record.
  destruct (records (disk w)) as [t|] eqn:Ht; [|done]. simpl.
  rewrite decide_False by done. simpl.
  intros [= <-]. split; [done|]. split; [done|]. split.
  - exists (new_rowid (r_id <$> rows t) (seq t)). eexists. split; [|split].
    + intros Hin. pose proof (new_rowid_gt_ids _ (seq t) _ Hin). lia.
    + rewrite get_records_run. unfold select_records. simpl. done.
    + rewrite !order_by_perm, filter_app, fmap_app.
      rewrite filter_cons_True by done. simpl.
      symmetry. apply Permutation_cons_append.
  - intros other Hne. rewrite !get_records_run. unfold select_records. simpl.
    rewrite Ht. simpl. rewrite filter_app.
    rewrite (filter_cons_False _ (RecordRow _ _ _ _)) by (simpl; congruence).
    by rewrite filter_nil, app_nil_r.
Qed.

(** ** Before and after [init_db] *)

Ltac run_outcome :=
  unfold call_outcome, outcome_of;
  rewrite ?init_db_run, ?add_student_run, ?get_students_run, ?delete_student_run,
    ?add_record_run, ?get_records_run, ?delete_record_run;
  unfold insert_student, select_students, delete_student_stmt, insert_record,
    select_records, delete_record_stmt.

(** On a file without the tables every function but [init_db] raises
    [OperationalError] and leaves the file as it is; [add_student] does not
    turn that error into [False]. *)
Theorem calls_need_tables (w : world) (c : call) :
  students (disk w) = None → records (disk w) = None → c ≠ InitDb →
  call_outcome c w = Raise OperationalError ∧ disk (perform c w) = disk w.
Proof.
  intros Hs Hr Hc.
  destruct c; try done; run_outcome; run_call; by rewrite ?Hs, ?Hr.
Qed.

Lemma perform_initialized (c : call) (w : world) :
  initialized (disk w) → initialized (disk (perform c w)).
Proof.
  intros [[st Hst] [rt Hrt]]. destruct (perform_table_step c w) as [Hs Hr].
  rewrite Hst in Hs. rewrite Hrt in Hr. split.
  - inversion Hs; eauto.
  - inversion Hr; eauto.
Qed.

Lemma unlocked_closed (db : database) (w : world) :
  unlocked w → unlocked (closed_world db w).
Proof. apply map_Forall_delete. Qed.

Lemma unlocked_leaked (w : world) : unlocked w → unlocked (leaked_world None w).
Proof. intros Hu. by apply map_Forall_insert_2. Qed.

(** With the tables created and while no connection holds the write lock,
    a call whose ids [sqlite3] can bind does not raise; it keeps the
    tables, and it leaves the write lock free unless it is an
    [add_student] with a name that is taken. *)
Theorem call_returns (w : world) (c : call) :
  initialized (disk w) → unlocked w → call_int64 c →
  call_outcome c w = Return () ∧
  initialized (disk (perform c w)) ∧
  ((∀ name, c = AddStudent name → name ∉ student_names (disk w)) →
   unlocked (perform c w)).
Proof.
  intros Hinit Hu _. split; [|split; [by apply perform_initialized|]].
  - destruct Hinit as [[st Hst] [rt Hrt]]. apply unlocked_not_busy in Hu.
    destruct c; run_outcome; rewrite ?Hst, ?Hrt; simpl;
      repeat case_match; simplify_eq/=; done.
  - destruct Hinit as [[st Hst] [rt Hrt]]. pose proof (unlocked_not_busy w Hu) as Hb.
    intros Hname.
    destruct c; run_call; rewrite ?Hst, ?Hrt; simpl;
      rewrite ?(decide_False (P := busy w)) by done; simpl;
      try (by apply unlocked_closed); try (by apply unlocked_leaked).
    specialize (Hname name eq_refl).
    unfold student_names, student_rows in Hname. rewrite Hst in Hname.
    rewrite decide_False by done. simpl.
    rewrite decide_False by done. by apply unlocked_closed.
Qed.

(** * The page *)

(** ** Dates as the page writes them *)

Lemma digit_digit_char (n : Z) : digit (digit_char n) = Some (n mod 10).
Proof.
  unfold digit, digit_char.
  pose proof (Z.mod_pos_bound n 10 eq_refl) as Hn.
  rewrite N_ascii_embedding by lia. rewrite Z2N.id by lia.
  rewrite !(proj2 (Z.leb_le _ _)) by lia. simpl. f_equal. lia.
Qed.

Lemma parse_strftime (d : date) :
  valid_date d → parse_ymd (strftime_ymd d) = Some (year d, month d, day d).
Proof.
  intros (Hy & Hm & Hd). unfold strftime_ymd, parse_ymd.
  rewrite !digit_digit_char. simpl. do 3 f_equal.
  - Z.div_mod_to_equations. lia.
  - Z.div_mod_to_equations. lia.
  - Z.div_mod_to_equations. lia.
Qed.

(** A date of a four-digit year, written by [strftime] and read back, is
    the same year, month and day. *)
Theorem strftime_roundtrip (d : date) :
  valid_date d → parse_ymd (strftime_ymd d) = Some (year d, month d, day d).
Proof. apply parse_strftime. Qed.

(** ** Line breaks in a record *)

(** The text shown for a record has no newline left, is the content
    itself when that has none, and is made piece by piece. *)
Theorem replace_newlines_spec (s1 s2 : string) :
  ("010"%char ∉ String.list_ascii_of_string (replace_newlines s1)) ∧
  ("010"%char ∉ String.list_ascii_of_string s1 → replace_newlines s1 = s1) ∧
  replace_newlines (String.append s1 s2) =
    String.append (replace_newlines s1) (replace_newlines s2).
Proof.
  induction s1 as [|c s1 (IH1 & IH2 & IH3)]; simpl.
  - split; [by intros ?%elem_of_nil|done].
  - destruct (Ascii.eqb_spec c "010") as [->|Hc]; simpl.
    + split; [|split].
      * rewrite !not_elem_of_cons. by repeat split.
      * rewrite not_elem_of_cons. by intros [? _].
      * by rewrite IH3.
    + split; [|split].
      * rewrite not_elem_of_cons. split; [congruence|done].
      * rewrite not_elem_of_cons. intros [_ Hs]. by rewrite IH2.
      * by rewrite IH3.
Qed.

(** ** The dictionary of the selectbox *)

Lemma dict_get_set (k k' : string) (v : Z) (d : list (string * Z)) :
  dict_get k (dict_set k' v d) = if decide (k' = k) then Some v else dict_get k d.
Proof.
  induction d as [|[k0 v0] d IH]; simpl.
  - done.
  - destruct (decide (k0 = k')) as [->|Hne]; simpl.
    + by destruct (decide (k' = k)).
    + rewrite IH. destruct (decide (k0 = k)) as [->|?]; [|done].
      by rewrite decide_False by congruence.
Qed.

Lemma dict_set_fresh (k : string) (v : Z) (d : list (string * Z)) :
  k ∉ dict_keys d → dict_set k v d = d ++ [(k, v)].
Proof.
  unfold dict_keys. induction d as [|[k0 v0] d IH]; csimpl; [done|].
  rewrite not_elem_of_cons. intros [Hne Hd].
  rewrite decide_False by congruence. by rewrite IH.
Qed.

Lemma dict_get_key (k : string) (d : list (string * Z)) :
  k ∈ dict_keys d → is_Some (dict_get k d).
Proof.
  unfold dict_keys. induction d as [|[k0 v0] d IH]; csimpl.
  - by intros ?%elem_of_nil.
  - intros Hk. destruct (decide (k0 = k)) as [->|Hne]; [eauto|].
    apply IH. apply elem_of_cons in Hk as [?|?]; [congruence|done].
Qed.

Lemma student_dict_from (d : list (string * Z)) (l : list (Z * string)) (k : string) (v : Z) :
  dict_get k (foldl (λ d '(id, name), dict_set name id d) d l) = Some v →
  dict_get k d = Some v ∨ (v, k) ∈ l.
Proof.
  revert d. induction l as [|[id name] l IH]; intros d; simpl; [by left|].
  intros [Hd|Hl]%IH; [|right; by right].
  rewrite dict_get_set in Hd. destruct (decide (name = k)) as [->|?]; [|by left].
  injection Hd as ->. right. left.
Qed.

Lemma student_dict_app (d : list (string * Z)) (l : list (Z * string)) :
  NoDup (dict_keys d ++ l.*2) →
  foldl (λ d '(id, name), dict_set name id d) d l = d ++ ((λ p, (p.2, p.1)) <$> l).
Proof.
  revert d. induction l as [|[id name] l IH]; intros d; csimpl.
  - intros _. by rewrite app_nil_r.
  - intros Hnd. apply NoDup_app in Hnd as (Hd & Hdis & Hl).
    apply NoDup_cons in Hl as [Hname Hl].
    assert (name ∉ dict_keys d) as Hfresh.
    { intros Hin. apply (Hdis _ Hin). left. }
    rewrite dict_set_fresh by done. rewrite IH.
    + by rewrite <- app_assoc.
    + unfold dict_keys in *. rewrite fmap_app. simpl.
      rewrite <- app_assoc. simpl. apply NoDup_app. split; [done|]. split.
      * intros x Hx. rewrite not_elem_of_cons. split.
        -- intros ->. done.
        -- intros Hxl. apply (Hdis _ Hx). by right.
      * by apply NoDup_cons.
Qed.

(** From a listing without repeated names the dictionary has the names as
    keys, in the order of the listing, and gives for a name the id listed
    with it, and nothing for any other name. *)
Theorem student_dict_lookup (l : list (Z * string)) :
  NoDup l.*2 →
  dict_keys (student_dict l) = l.*2 ∧
  ∀ id name, dict_get name (student_dict l) = Some id ↔ (id, name) ∈ l.
Proof.
  intros Hnd. unfold student_dict.
  rewrite (student_dict_app [] l) by done. simpl. split.
  - unfold dict_keys. rewrite <- list_fmap_compose. done.
  - intros id name. clear -Hnd. induction l as [|[id0 name0] l IH]; csimpl.
    + split; [done|by intros ?%elem_of_nil].
    + apply NoDup_cons in Hnd as [Hn Hnd]. rewrite elem_of_cons.
      destruct (decide (name0 = name)) as [->|Hne].
      * split; [intros [= ->]; by left|].
        intros [[= -> ]|Hin]; [done|].
        destruct Hn. by apply (list_elem_of_fmap_2 snd _ (id, name)).
      * rewrite IH by done. split; [by right|].
        intros [[= ? ?]|?]; [congruence|done].
Qed.

(** ** Reasoning about a run *)

Lemma triple_ret {A : Type} (P : world → Prop) (a : A) (Q : A → world → Prop)
    (E : world → Prop) :
  (∀ w, P w → Q a w) → triple P (mret a) Q E.
Proof. intros H w Hw. by apply H. Qed.

Lemma triple_bind {A B : Type} (P : world → Prop) (m : py A)
    (Q : A → world → Prop) (k : A → py B) (R : B → world → Prop) (E : world → Prop) :
  triple P m Q E → (∀ a, triple (Q a) (k a) R E) → triple P (m ≫= k) R E.
Proof.
  intros Hm Hk w Hw. specialize (Hm w Hw). unfold mbind, py_bind.
  destruct (m w) as [[a|e] w']; [by apply Hk|done].
Qed.

Lemma triple_case {A : Type} (P : world → Prop) (m : py A)
    (Q : A → world → Prop) (E : world → Prop) :
  (∀ w0, P w0 → triple (λ w, w = w0) m Q E) → triple P m Q E.
Proof. intros H w Hw. by apply (H w Hw w). Qed.

Lemma triple_with {A : Type} (P P' : world → Prop) (m : py A)
    (Q : A → world → Prop) (E : world → Prop) :
  (∀ w, P w → P' w) → triple P' m Q E → triple P m Q E.
Proof. intros HP Hm w Hw. by apply Hm, HP. Qed.

Lemma triple_post {A : Type} (P : world → Prop) (m : py A)
    (Q Q' : A → world → Prop) (E E' : world → Prop) :
  triple P m Q E → (∀ a w, Q a w → Q' a w) → (∀ w, E w → E' w) → triple P m Q' E'.
Proof.
  intros Hm HQ HE w Hw. specialize (Hm w Hw).
  destruct (m w) as [[a|e] w']; auto.
Qed.

Lemma init_db_triple (d : database) (U : Prop) (E : world → Prop) :
  triple (at_file d U) init_db (λ _ w', at_file (with_tables d) U w') E.
Proof.
  intros w [<- Hu]. rewrite init_db_run. split; [done|].
  intros HU. by apply unlocked_closed, Hu.
Qed.

Lemma get_students_triple (d : database) (l : list (Z * string)) (U : Prop)
    (E : world → Prop) :
  select_students d = Return l →
  triple (at_file d U) get_students (λ a w', a = l ∧ at_file d U w') E.
Proof.
  intros Hl w [<- Hu]. rewrite get_students_run, Hl.
  split; [done|]. split; [done|]. intros HU. by apply unlocked_closed, Hu.
Qed.

Lemma get_records_triple (d : database) (sid : Z) (l : list (Z * string * string))
    (U : Prop) (E : world → Prop) :
  select_records sid d = Return l →
  triple (at_file d U) (get_records sid) (λ a w', a = l ∧ at_file d U w') E.
Proof.
  intros Hl w [<- Hu]. rewrite get_records_run, Hl.
  split; [done|]. split; [done|]. intros HU. by apply unlocked_closed, Hu.
Qed.

(** A function that writes returns when the write lock is free; when it
    raises, the lock was held and the file is as it was. *)
Lemma add_student_triple (d : database) (name : string) (U : Prop) :
  is_Some (students d) →
  triple (at_file d U) (add_student name)
    (λ added w',
       (added = true ∧ insert_student name d = Return (disk w') ∧ (U → unlocked w')) ∨
       (added = false ∧ name ∈ student_names d ∧ disk w' = d))
    (λ w', disk w' = d ∧ ¬ U).
Proof.
  intros [t Ht] w [<- Hu]. rewrite add_student_run.
  unfold insert_student, student_names, student_rows. rewrite Ht.
  assert (busy w → ¬ U) as Hb.
  { intros Hb HU. exact (unlocked_not_busy w (Hu HU) Hb). }
  simpl. destruct (decide (name ∈ s_name <$> rows t)) as [Hin|Hn]; simpl;
    destruct (decide (busy w)); simpl; auto.
  left. split; [done|]. split; [done|]. intros HU. by apply unlocked_closed, Hu.
Qed.

Lemma delete_student_triple (d d' : database) (id : Z) (U : Prop) :
  delete_student_stmt false id d = Return d' →
  triple (at_file d U) (delete_student id) (λ _ w', at_file d' U w')
    (λ w', disk w' = d ∧ ¬ U).
Proof.
  intros Hd w [<- Hu]. rewrite delete_student_run, Hd.
  destruct (decide (busy w)) as [Hb|Hb]; simpl.
  - split; [done|]. intros HU. exact (unlocked_not_busy w (Hu HU) Hb).
  - split; [done|]. intros HU. by apply unlocked_closed, Hu.
Qed.

Lemma add_record_triple (d d' : database) (sid : Z) (date content : string) (U : Prop) :
  insert_record false sid date content d = Return d' →
  triple (at_file d U) (add_record sid date content) (λ _ w', at_file d' U w')
    (λ w', disk w' = d ∧ ¬ U).
Proof.
  intros Hd w [<- Hu]. rewrite add_record_run, Hd.
  destruct (decide (busy w)) as [Hb|Hb]; simpl.
  - split; [done|]. intros HU. exact (unlocked_not_busy w (Hu HU) Hb).
  - split; [done|]. intros HU. by apply unlocked_closed, Hu.
Qed.

Lemma delete_record_triple (d d' : database) (id : Z) (U : Prop) :
  delete_record_stmt id d = Return d' →
  triple (at_file d U) (delete_record id) (λ _ w', at_file d' U w')
    (λ w', disk w' = d ∧ ¬ U).
Proof.
  intros Hd w [<- Hu]. rewrite delete_record_run, Hd.
  destruct (decide (busy w)) as [Hb|Hb]; simpl.
  - split; [done|]. intros HU. exact (unlocked_not_busy w (Hu HU) Hb).
  - split; [done|]. intros HU. by apply unlocked_closed, Hu.
Qed.

Lemma with_tables_initialized (d : database) : initialized d → with_tables d = d.
Proof. intros [[st Hst] [rt Hrt]]. destruct d; simpl in *. by subst. Qed.

Lemma initialized_with_tables (d : database) : initialized (with_tables d).
Proof. split; simpl; eauto. Qed.

(** ** The sections of the script *)

(** In the lemmas below the file is [d]; [U] says that no connection holds
    the write lock; a section raises only where [G] holds. *)

Lemma add_student_section_triple (d : database) (U G : Prop) (ui : widgets) :
  is_Some (students d) → (add_clicked ui = true → ¬ U → G) →
  triple (at_file d U) (add_student_section ui)
    (λ r w', (r.2 = Finished ∧ at_file d (U ∧ add_clicked ui = false) w') ∨
             (r.2 = Rerun ∧ add_clicked ui = true ∧ new_student_name ui ≠ "" ∧
              insert_student (new_student_name ui) d = Return (disk w')))
    (λ w', disk w' = d ∧ G).
Proof.
  intros Hs HG. unfold add_student_section.
  destruct (add_clicked ui) eqn:Hc.
  2:{ apply triple_ret. intros w [Hd Hu]. left. split; [done|].
      split; [done|]. intros [HU _]. auto. }
  case_bool_decide as Hn.
  2:{ apply triple_ret. intros w [Hd Hu]. left. split; [done|].
      split; [done|]. by intros [_ ?]. }
  eapply triple_bind.
  { eapply triple_post; [by apply add_student_triple|done|].
    simpl. intros w [? ?]. auto. }
  intros [|]; apply triple_ret; intros w [(? & ? & ?)|(? & ? & ?)]; try done.
  - by right.
  - left. split; [done|]. split; [done|]. by intros [_ ?].
Qed.

Lemma save_record_section_triple (d : database) (U G : Prop) (ui : widgets) (sid : Z) :
  is_Some (records d) → (save_clicked ui = true → ¬ U → G) →
  triple (at_file d U) (save_record_section ui sid)
    (λ r w', (r.2 = Finished ∧ at_file d U w') ∨
             (r.2 = Rerun ∧ save_clicked ui = true ∧ record_content ui ≠ "" ∧
              insert_record false sid (strftime_ymd (record_date ui))
                (record_content ui) d = Return (disk w')))
    (λ w', disk w' = d ∧ G).
Proof.
  intros [t Ht] HG. unfold save_record_section.
  destruct (save_clicked ui) eqn:Hc; [|apply triple_ret; by left].
  case_bool_decide as Hn; [|apply triple_ret; by left].
  assert (∃ d', insert_record false sid (strftime_ymd (record_date ui))
                  (record_content ui) d = Return d') as [d' Hd'].
  { unfold insert_record. rewrite Ht. simpl. eauto. }
  eapply triple_bind.
  { eapply triple_post; [by apply add_record_triple|done|].
    simpl. intros w [? ?]. auto. }
  intros ?. apply triple_ret. intros w [Hw _]. subst d'. by right.
Qed.

Lemma records_loop_triple (d : database) (U G : Prop) (ui : widgets)
    (recs : list (Z * string * string)) :
  is_Some (records d) → (∀ id, delete_record_clicked ui id = true → ¬ U → G) →
  triple (at_file d U) (records_loop ui recs)
    (λ r w', (r.2 = Finished ∧ at_file d U w') ∨
             (r.2 = Rerun ∧ ∃ id, id ∈ recs.*1.*1 ∧
                delete_record_clicked ui id = true ∧
                delete_record_stmt id d = Return (disk w')))
    (λ w', disk w' = d ∧ G).
Proof.
  intros [t Ht] HG. induction recs as [|[[id date] content] recs IH]; simpl.
  - apply triple_ret. by left.
  - destruct (delete_record_clicked ui id) eqn:Hc.
    + assert (∃ d', delete_record_stmt id d = Return d') as [d' Hd'].
      { unfold delete_record_stmt. rewrite Ht. eauto. }
      eapply triple_bind.
      { eapply triple_post; [by apply delete_record_triple|done|].
        simpl. intros w [? ?]. eauto. }
      intros ?. apply triple_ret. intros w [Hw _]. subst d'. right.
      split; [done|]. exists id. split; [left|done].
    + eapply triple_bind; [exact IH|].
      intros [more e]. apply triple_ret. simpl.
      intros w [[-> ?]|(-> & id' & Hin & Hc' & Hd')]; [by left|].
      right. split; [done|]. exists id'. split; [by right|done].
Qed.

Lemma select_records_ids (d : database) (sid : Z) (l : list (Z * string * string)) (id : Z) :
  select_records sid d = Return l → id ∈ l.*1.*1 → id ∈ record_ids d.
Proof.
  unfold select_records, record_ids, record_rows.
  destruct (records d) as [t|]; [|done]. intros [= <-].
  rewrite <- !list_fmap_compose.
  intros (r & -> & Hr)%list_elem_of_fmap. simpl.
  rewrite order_by_perm in Hr. apply list_elem_of_filter in Hr as [_ Hr].
  by apply list_elem_of_fmap_2.
Qed.

Lemma records_section_triple (d : database) (U G : Prop) (ui : widgets) (sid : Z) :
  is_Some (records d) → (∀ id, delete_record_clicked ui id = true → ¬ U → G) →
  triple (at_file d U) (records_section ui sid)
    (λ r w', (r.2 = Finished ∧ at_file d U w') ∨
             (r.2 = Rerun ∧ ∃ id, id ∈ record_ids d ∧
                delete_record_clicked ui id = true ∧
                delete_record_stmt id d = Return (disk w')))
    (λ w', disk w' = d ∧ G).
Proof.
  intros Hr HG. unfold records_section.
  assert (∃ l, select_records sid d = Return l) as [l Hl].
  { unfold select_records. destruct Hr as [t ->]. eauto. }
  eapply triple_bind; [by apply get_records_triple|].
  intros recs. apply triple_case. intros w0 [-> Hw0].
  apply (triple_with _ (at_file d U)); [by intros ? ->|].
  case_bool_decide; [apply triple_ret; by left|].
  eapply triple_post; [by apply records_loop_triple| |done].
  simpl. intros r w [?|(? & id & Hin & ? & ?)]; [by left|].
  right. split; [done|]. exists id. eauto using select_records_ids.
Qed.

Lemma student_section_triple (d : database) (U G : Prop) (ui : widgets)
    (dict : list (string * Z)) :
  initialized d → dict ≠ [] →
  (∀ k v, dict_get k dict = Some v → v ∈ student_ids d) →
  (other_button ui → ¬ U → G) →
  triple (at_file d U) (student_section ui dict)
    (λ r w', r.2 ≠ KeyError ∧ script_step ui d (disk w'))
    (λ w', disk w' = d ∧ G).
Proof.
  intros Hinit Hne Hdict HG. pose proof Hinit as [[st Hst] [rt Hrt]].
  assert (script_step ui d d) as Hidle.
  { rewrite <- (with_tables_initialized d) at 2 by done. constructor. }
  unfold student_section, selectbox.
  destruct (dict_keys dict !! _) as [name|] eqn:Hsel.
  2:{ apply lookup_ge_None in Hsel. unfold dict_keys in *.
      rewrite length_fmap in *. destruct dict; [done|]. simpl in Hsel.
      pose proof (Nat.mod_upper_bound (student_choice ui) (S (length dict))). lia. }
  apply list_elem_of_lookup_2, dict_get_key in Hsel as [id Hid].
  rewrite Hid. pose proof (Hdict _ _ Hid) as Hin.
  destruct (delete_student_clicked ui) eqn:Hdel.
  - assert (∃ d', delete_student_stmt false id d = Return d') as [d' Hd'].
    { unfold delete_student_stmt. rewrite Hst. eauto. }
    eapply triple_bind.
    { eapply triple_post; [by apply delete_student_triple|done|].
      simpl. intros w [? ?]. split; [done|]. apply HG; [|done]. by left. }
    intros ?. apply triple_ret. intros w [Hw _]. subst d'. split; [done|].
    apply (run_deletes_student ui d id); by rewrite ?with_tables_initialized.
  - eapply triple_bind.
    { apply save_record_section_triple; [eauto|].
      intros Hc. apply HG. right. by left. }
    intros [shown1 e1]. apply triple_case. simpl.
    intros w0 [[-> Hw0]|(-> & Hc & Hn & Hd1)].
    + apply (triple_with _ (at_file d U)); [by intros ? ->|].
      eapply triple_bind.
      { apply records_section_triple; [eauto|].
        intros rid Hc. apply HG. right. right. eauto. }
      intros [shown2 e2]. apply triple_ret. simpl.
      intros w [[-> [-> _]]|(-> & rid & Hrid & Hc & Hd')]; [done|].
      split; [done|].
      apply (run_deletes_record ui d rid); by rewrite ?with_tables_initialized.
    + apply triple_ret. simpl. intros w ->. split; [done|].
      apply (run_saves_record ui d id); by rewrite ?with_tables_initialized.
Qed.

Lemma student_dict_ids (d : database) (l : list (Z * string)) (k : string) (v : Z) :
  select_students d = Return l → dict_get k (student_dict l) = Some v →
  v ∈ student_ids d.
Proof.
  unfold select_students, student_ids, student_rows.
  destruct (students d) as [t|]; [|done]. intros [= <-] Hget.
  apply student_dict_from in Hget as [?|Hin]; [done|].
  apply list_elem_of_fmap in Hin as (r & [= -> ->] & Hr).
  rewrite order_by_perm in Hr. by apply list_elem_of_fmap_2.
Qed.

Lemma student_dict_nonempty (l : list (Z * string)) : l ≠ [] → student_dict l ≠ [].
Proof.
  unfold student_dict. intros Hl.
  assert (∀ (l : list (Z * string)) d, d ≠ [] →
            foldl (λ d '(id, name), dict_set name id d) d l ≠ []) as Hfold.
  { clear. induction l as [|[id name] l IH]; intros d Hd; simpl; [done|].
    apply IH. destruct d as [|[k v] d]; simpl; [done|]. by case_decide. }
  destruct l as [|[id name] l]; [done|]. simpl. by apply Hfold.
Qed.

(** A run of the script on the file [d]: when it returns, it has not
    stopped at a [KeyError] and has done to the file what [script_step]
    says; it raises only where a write found the lock held, and then the
    file has its tables and is otherwise as it was. *)
Lemma script_triple (d : database) (U G : Prop) (ui : widgets) :
  (add_clicked ui = true → ¬ U → G) →
  (other_button ui → ¬ (U ∧ add_clicked ui = false) → G) →
  triple (at_file d U) (script ui)
    (λ r w', r.2 ≠ KeyError ∧ script_step ui d (disk w'))
    (λ w', disk w' = with_tables d ∧ G).
Proof.
  intros HG1 HG2. unfold script.
  eapply triple_bind; [apply init_db_triple|].
  intros ?. pose proof (initialized_with_tables d) as Hinit.
  pose proof Hinit as [Hs Hr].
  eapply triple_bind; [by apply add_student_section_triple|].
  intros [shown1 e1]. apply triple_case. simpl.
  intros w0 [[-> Hw0]|(-> & Hc & Hn & Hd1)].
  - apply (triple_with _ (at_file (with_tables d) (U ∧ add_clicked ui = false)));
      [by intros ? ->|].
    assert (∃ l, select_students (with_tables d) = Return l) as [l Hl].
    { unfold select_students. simpl. eauto. }
    eapply triple_bind; [by apply get_students_triple|].
    intros students. apply triple_case. intros w1 [-> Hw1].
    apply (triple_with _ (at_file (with_tables d) (U ∧ add_clicked ui = false)));
      [by intros ? ->|].
    case_bool_decide as Hnil.
    + apply triple_ret. intros w [Hw _]. split; [done|]. rewrite Hw. constructor.
    + eapply triple_bind.
      * apply student_section_triple;
          [done|by apply student_dict_nonempty| |exact HG2].
        intros k v. by apply student_dict_ids.
      * intros [shown2 e2]. apply triple_ret. simpl. intros w [He Hstep].
        split; [done|].
        destruct Hstep as [|db' ? ? Hd'|id db' ? ? Hd'|sid db' ? ? ? Hd'|id db' ? ? Hd'];
          rewrite ?(with_tables_initialized _ Hinit) in *.
        -- constructor.
        -- by apply run_adds_student.
        -- by apply (run_deletes_student ui d id).
        -- by apply (run_saves_record ui d sid).
        -- by apply (run_deletes_record ui d id).
  - apply triple_ret. simpl. intros w ->. split; [done|].
    by apply run_adds_student.
Qed.

(** ** What a run does *)

(** No run of the script stops at a [KeyError] of the dictionary; and a
    run returns, no call of the store raising in it, when it starts with
    the write lock free and the add button is not clicked together with
    another button. *)
Theorem script_returns (w : world) (ui : widgets) :
  (∀ shown, result (script ui) w ≠ Return (shown, KeyError)) ∧
  (unlocked w → (add_clicked ui = true → ¬ other_button ui) →
   ∃ shown e, result (script ui) w = Return (shown, e)).
Proof.
  unfold result. split.
  - pose proof (script_triple (disk w) False True ui (λ _ _, I) (λ _ _, I) w) as H.
    intros shown Hr. destruct (script ui w) as [[[shown' e]|] w']; [|done].
    simpl in *. destruct H as [He _]; [by split|]. congruence.
  - intros Hu Hone.
    assert (add_clicked ui = true → ¬ True → False) as HG1 by tauto.
    assert (other_button ui → ¬ (True ∧ add_clicked ui = false) → False) as HG2.
    { intros Ho Hn. destruct (add_clicked ui) eqn:Hc; [by apply Hone|]. by apply Hn. }
    pose proof (script_triple (disk w) True False ui HG1 HG2 w) as H.
    destruct (script ui w) as [[[shown e]|] w'].
    + eauto.
    + by destruct H.
Qed.

Lemma script_does (w : world) (ui : widgets) :
  script_step ui (disk w) (disk (after (script ui) w)).
Proof.
  pose proof (script_triple (disk w) False True ui (λ _ _, I) (λ _ _, I) w) as H.
  unfold after. destruct (script ui w) as [[r|] w']; simpl in *.
  - by destruct H as [_ ?]; [by split|].
  - destruct H as [-> _]; [by split|]. constructor.
Qed.

(** A run in which no button is clicked, or only the add button with an
    empty name or a name that is taken, leaves the tables as they are
    (creating them if they were not there). *)
Theorem script_reads_only (w : world) (ui : widgets) :
  (add_clicked ui = true →
   new_student_name ui = "" ∨ new_student_name ui ∈ student_names (disk w)) →
  delete_student_clicked ui = false → save_clicked ui = false →
  (∀ id, delete_record_clicked ui id = false) →
  disk (after (script ui) w) = with_tables (disk w).
Proof.
  intros Hadd Hdel Hsave Hrec.
  destruct (script_does w ui) as [|db' Hc Hn Hd'|id db' Hc|sid db' Hc|id db' Hc];
    [done| |congruence|congruence|by rewrite Hrec in Hc].
  destruct (Hadd Hc) as [?|Hin]; [done|].
  unfold insert_student in Hd'. simpl in Hd'.
  rewrite decide_True in Hd'; [done|].
  unfold student_names, student_rows in Hin.
  by destruct (students (disk w)).
Qed.

(** A record that a run adds belongs to a student that is in the store
    and has a content that is not empty; its date, for a date input of a
    four-digit year, reads back as the day of the date input. *)
Theorem script_adds_record (w : world) (ui : widgets) (r : record_row) :
  r ∈ record_rows (disk (after (script ui) w)) → r ∉ record_rows (disk w) →
  r_student_id r ∈ student_ids (disk (after (script ui) w)) ∧
  r_content r ≠ "" ∧
  (valid_date (record_date ui) → parse_ymd (r_date r) = Some (ymd (record_date ui))).
Proof.
  intros Hin Hnew.
  assert (record_rows (with_tables (disk w)) = record_rows (disk w)) as Hrows.
  { unfold record_rows. simpl. by destruct (records (disk w)). }
  destruct (script_does w ui) as [|db' Hc Hn Hd'|id db' Hc Hid Hd'
                                   |sid db' Hc Hn Hsid Hd'|id db' Hc Hid Hd'].
  - by rewrite Hrows in Hin.
  - unfold insert_student in Hd'. simpl in Hd'. case_decide; [done|].
    injection Hd' as <-. by rewrite <- Hrows in Hnew.
  - unfold delete_student_stmt in Hd'. simpl in Hd'. injection Hd' as <-.
    by rewrite <- Hrows in Hnew.
  - unfold insert_record in Hd'. simpl in Hd'. injection Hd' as <-.
    unfold record_rows in Hin, Hrows. simpl in Hin, Hrows.
    apply elem_of_app in Hin as [Hin|Hin]; [by rewrite Hrows in Hin|].
    apply list_elem_of_singleton in Hin as ->. simpl.
    split; [done|]. split; [done|]. apply parse_strftime.
  - unfold delete_record_stmt in Hd'. simpl in Hd'. injection Hd' as <-.
    unfold record_rows in Hin, Hrows. simpl in Hin, Hrows.
    apply list_elem_of_filter in Hin as [_ Hin]. by rewrite Hrows in Hin.
Qed.

(** ** What a session keeps *)

Lemma session_snoc (uis : list widgets) (ui : widgets) (w : world) :
  session (uis ++ [ui]) w = after (script ui) (session uis w).
Proof. unfold session. by rewrite foldl_app. Qed.

(** The five things a run can do, in terms of the rows and counters. *)
Lemma script_step_cases (ui : widgets) (d d' : database) :
  script_step ui d d' →
  initialized d' ∧
  ((student_rows d' = student_rows d ∧ students_seq d' = students_seq d ∧
    record_rows d' = record_rows d ∧ records_seq d' = records_seq d) ∨
   (new_student_name ui ≠ "" ∧ (new_student_name ui ∉ student_names d) ∧
    student_rows d' =
      student_rows d ++
        [StudentRow (new_rowid (student_ids d) (students_seq d)) (new_student_name ui)] ∧
    students_seq d' = new_rowid (student_ids d) (students_seq d) ∧
    record_rows d' = record_rows d ∧ records_seq d' = records_seq d) ∨
   (∃ id, student_rows d' = filter (λ r, s_id r ≠ id) (student_rows d) ∧
          students_seq d' = students_seq d ∧
          record_rows d' = record_rows d ∧ records_seq d' = records_seq d) ∨
   (∃ sid, record_content ui ≠ "" ∧ sid ∈ student_ids d ∧
           record_rows d' =
             record_rows d ++
               [RecordRow (new_rowid (record_ids d) (records_seq d)) sid
                  (strftime_ymd (record_date ui)) (record_content ui)] ∧
           records_seq d' = new_rowid (record_ids d) (records_seq d) ∧
           student_rows d' = student_rows d ∧ students_seq d' = students_seq d) ∨
   (∃ id, record_rows d' = filter (λ r, r_id r ≠ id) (record_rows d) ∧
          records_seq d' = records_seq d ∧
          student_rows d' = student_rows d ∧ students_seq d' = students_seq d)).
Proof.
  unfold student_names, student_ids, record_ids, student_rows, record_rows,
    students_seq, records_seq.
  destruct 1 as [|db' Hc Hn Hd'|id db' Hc Hid Hd'|sid db' Hc Hn Hsid Hd'|id db' Hc Hid Hd'].
  - split; [apply initialized_with_tables|]. left. simpl.
    by destruct (students d), (records d).
  - unfold insert_student in Hd'. simpl in Hd'. case_decide as Hin; [done|].
    injection Hd' as <-. split; [split; simpl; eauto|]. right. left. simpl.
    by destruct (students d), (records d).
  - unfold delete_student_stmt in Hd'. simpl in Hd'. injection Hd' as <-.
    split; [split; simpl; eauto|]. do 2 right. left. exists id. simpl.
    by destruct (students d), (records d).
  - unfold insert_record in Hd'. simpl in Hd'. injection Hd' as <-.
    split; [split; simpl; eauto|]. do 3 right. left. exists sid.
    unfold student_ids, student_rows in Hsid. simpl in *.
    by destruct (students d), (records d).
  - unfold delete_record_stmt in Hd'. simpl in Hd'. injection Hd' as <-.
    split; [split; simpl; eauto|]. do 4 right. exists id. simpl.
    by destruct (students d), (records d).
Qed.

Ltac step_cases H :=
  apply script_step_cases in H as
    [_ [(Hs & Hsq & Hr & Hrq)
       |[(Hname & Hfresh & Hs & Hsq & Hr & Hrq)
        |[(id & Hs & Hsq & Hr & Hrq)
         |[(sid & Hcontent & Hsid & Hr & Hrq & Hs & Hsq)
          |(id & Hr & Hrq & Hs & Hsq)]]]]].

Ltac elem_snoc H :=
  apply elem_of_app in H as [H|H]; [|apply list_elem_of_singleton in H; subst].

Lemma script_step_texts (ui : widgets) (d d' : database) :
  script_step ui d d' → texts_ok d → texts_ok d'.
Proof.
  intros Hstep [Hn Hc]. step_cases Hstep; split; rewrite ?Hs, ?Hr; try done.
  - intros s Hin. elem_snoc Hin; [auto|done].
  - intros s [_ ?]%list_elem_of_filter. auto.
  - intros r Hin. elem_snoc Hin; [auto|done].
  - intros r [_ ?]%list_elem_of_filter. auto.
Qed.

Lemma script_step_dates (ui : widgets) (d d' : database) :
  valid_date (record_date ui) → script_step ui d d' → dates_ok d → dates_ok d'.
Proof.
  intros Hv Hstep Hd. step_cases Hstep; intros r; rewrite ?Hr; try apply Hd.
  - intros Hin. elem_snoc Hin; [auto|]. simpl. eauto.
  - intros [_ ?]%list_elem_of_filter. auto.
Qed.

Lemma script_step_sequence (ui : widgets) (d d' : database) :
  script_step ui d d' → sequence_ok d → sequence_ok d'.
Proof.
  unfold sequence_ok, student_ids, record_ids.
  intros Hstep [Hs0 Hr0]. step_cases Hstep; rewrite ?Hs, ?Hr, ?Hsq, ?Hrq;
    (split; [try done|try done]); intros i; rewrite ?fmap_app.
  - pose proof (new_rowid_gt_seq (student_ids d) (students_seq d)).
    intros Hi. elem_snoc Hi; [|simpl; lia].
    specialize (Hs0 i Hi). lia.
  - intros (r & -> & [_ Hin]%list_elem_of_filter)%list_elem_of_fmap.
    apply Hs0. by apply list_elem_of_fmap_2.
  - pose proof (new_rowid_gt_seq (record_ids d) (records_seq d)).
    intros Hi. elem_snoc Hi; [|simpl; lia].
    specialize (Hr0 i Hi). lia.
  - intros (r & -> & [_ Hin]%list_elem_of_filter)%list_elem_of_fmap.
    apply Hr0. by apply list_elem_of_fmap_2.
Qed.

Lemma script_step_owners (ui : widgets) (d d' : database) :
  script_step ui d d' → sequence_ok d → owners_ok d → owners_ok d'.
Proof.
  unfold owners_ok. intros Hstep [Hs0 _] Ho.
  step_cases Hstep; intros r; rewrite ?Hr, ?Hsq; try apply Ho.
  - pose proof (new_rowid_gt_seq (student_ids d) (students_seq d)).
    intros Hin. specialize (Ho r Hin). lia.
  - intros Hin. elem_snoc Hin; [auto|]. simpl. auto.
  - intros [_ ?]%list_elem_of_filter. auto.
Qed.

Lemma script_step_unique_names (ui : widgets) (d d' : database) :
  script_step ui d d' → unique_names d → unique_names d'.
Proof.
  unfold unique_names, student_names. intros Hstep Hu.
  step_cases Hstep; rewrite ?Hs; try done.
  - rewrite fmap_app. apply NoDup_app. split; [done|]. split.
    + intros x Hx Hy. apply list_elem_of_singleton in Hy. by subst.
    + apply NoDup_singleton.
  - by apply NoDup_fmap_filter.
Qed.

Lemma session_invariants (uis : list widgets) :
  texts_ok (disk (session uis fresh_world)) ∧
  unique_names (disk (session uis fresh_world)) ∧
  sequence_ok (disk (session uis fresh_world)) ∧
  owners_ok (disk (session uis fresh_world)).
Proof.
  induction uis as [|ui uis (Ht & Hu & Hs & Ho)] using rev_ind.
  - repeat split; try constructor; by intros ? ?%elem_of_nil.
  - rewrite session_snoc.
    pose proof (script_does (session uis fresh_world) ui) as Hstep.
    split; [by eapply script_step_texts|].
    split; [by eapply script_step_unique_names|].
    split; [by eapply script_step_sequence|].
    by eapply script_step_owners.
Qed.

Lemma session_dates (uis : list widgets) :
  Forall (λ ui, valid_date (record_date ui)) uis →
  dates_ok (disk (session uis fresh_world)).
Proof.
  induction uis as [|ui uis IH] using rev_ind; intros Hv.
  - by intros ? ?%elem_of_nil.
  - apply Forall_app in Hv as [Hv Hui]. rewrite Forall_singleton in Hui.
    rewrite session_snoc.
    apply (script_step_dates ui (disk (session uis fresh_world)));
      [done|apply script_does|by apply IH].
Qed.

Lemma session_initialized (ui : widgets) (uis : list widgets) (w : world) :
  initialized (disk (session (ui :: uis) w)).
Proof.
  induction uis as [|ui' uis IH] using rev_ind.
  - simpl. by destruct (script_step_cases _ _ _ (script_does w ui)) as [? _].
  - rewrite app_comm_cons, session_snoc.
    by destruct (script_step_cases _ _ _ (script_does (session (ui :: uis) w) ui'))
      as [? _].
Qed.

(** Through the page, from a new file: no student has an empty name, no
    two students have the same name, and no record has an empty
    content. *)
Theorem session_texts (uis : list widgets) :
  texts_ok (disk (session uis fresh_world)) ∧
  unique_names (disk (session uis fresh_world)).
Proof. destruct (session_invariants uis) as (? & ? & _). by split. Qed.

(** Through the page, from a new file: a student that a run adds has no
    record, whatever was added and deleted before. *)
Theorem session_new_student_no_records (uis : list widgets) (ui : widgets) (id : Z) :
  id ∈ student_ids (disk (after (script ui) (session uis fresh_world))) →
  id ∉ student_ids (disk (session uis fresh_world)) →
  result (get_records id) (after (script ui) (session uis fresh_world)) = Return [].
Proof.
  destruct (session_invariants uis) as (_ & _ & Hseq & Ho).
  pose proof (script_does (session uis fresh_world) ui) as Hstep.
  set (w := session uis fresh_world) in *. set (w' := after (script ui) w) in *.
  intros Hin Hnew.
  destruct (script_step_cases _ _ _ Hstep) as [[_ Hrt] Hcases].
  destruct (get_records_listing w' id Hrt) as (l & -> & _ & _ & Hnil).
  f_equal. apply Hnil. intros r Hr Hid.
  unfold student_ids in Hin, Hnew.
  destruct Hcases as [(Hs & _)
       |[(_ & _ & Hs & Hsq & Hrr & _)
        |[(id' & Hs & _)
         |[(sid & _ & _ & _ & _ & Hs & _)
          |(id' & _ & _ & Hs & _)]]]]; rewrite Hs in Hin; try done.
  - rewrite fmap_app in Hin. elem_snoc Hin; [done|]. simpl in *.
    rewrite Hrr in Hr. specialize (Ho r Hr).
    pose proof (new_rowid_gt_seq (student_ids (disk w)) (students_seq (disk w))).
    lia.
  - apply list_elem_of_fmap in Hin as (s & -> & [_ Hs']%list_elem_of_filter).
    destruct Hnew. by apply list_elem_of_fmap_2.
Qed.

Lemma StronglySorted_weaken {A : Type} (R R' : A → A → Prop) (l : list A) :
  (∀ x y, R x y → R' x y) → StronglySorted R l → StronglySorted R' l.
Proof.
  intros HR. induction 1 as [|x l Hl IH Hx]; constructor; [done|].
  eapply Forall_impl; [exact Hx|]. auto.
Qed.

(** Through the page, from a new file, with dates of four-digit years:
    for an id that [sqlite3] can bind, every date in the listing of records
    reads as a calendar day, and no entry is of an earlier day than an entry
    after it. *)
Theorem session_latest_first (ui : widgets) (uis : list widgets) (sid : Z) :
  Forall (λ ui, valid_date (record_date ui)) (ui :: uis) → int64 sid →
  ∃ l, result (get_records sid) (session (ui :: uis) fresh_world) = Return l ∧
       Forall (λ t, is_Some (parse_ymd t.1.2)) l ∧
       StronglySorted (λ a b, ∀ da db, parse_ymd a.1.2 = Some da →
                                parse_ymd b.1.2 = Some db → ¬ earlier da db) l.
Proof.
  intros Hv _. pose proof (session_dates _ Hv) as Hd.
  destruct (session_initialized ui uis fresh_world) as [_ Hrt].
  destruct (get_records_listing _ sid Hrt) as (l & Hl & Hp & Hsorted & _).
  exists l. split; [done|]. split.
  - apply Forall_forall. intros t Ht. rewrite Hp in Ht.
    apply list_elem_of_fmap in Ht as (r & -> & [_ Hr]%list_elem_of_filter).
    destruct (Hd r Hr) as (d & Hvd & Hdate). simpl. rewrite Hdate.
    rewrite parse_strftime by done. eauto.
  - eapply StronglySorted_weaken; [|exact Hsorted].
    intros a b Hle da db Ha Hb He. simpl in Hle.
    destruct (parse_ymd_order _ _ _ _ Ha Hb He) as [_ Hf]. congruence.
Qed.

(** ** The further theorems at work *)

Example classroom_page :
  result (script idle) classroom =
    Return ([RecordsOf "Amy"; NoRecords], Finished) ∧
  result (script (click_save 1 (Date 2024 3 1) "Absent")) classroom =
    Return ([RecordsOf "Zoe"; RecordSaved], Rerun) ∧
  result (get_records 1) (after (script (click_save 1 (Date 2024 3 1) "Absent")) classroom) =
    Return [(3, "2024-03-01", "Absent"); (2, "2024-02-05", "Met with parent");
            (1, "2024-01-10", "Late for class")].
Proof. by vm_compute. Qed.

Lemma add_student_new_witness :
  result (add_student "Bo") classroom = Return true ∧
  records (disk (after (add_student "Bo") classroom)) = records (disk classroom) ∧
  ∃ new_id l',
    (new_id ∉ student_ids (disk classroom)) ∧
    result get_students (after (add_student "Bo") classroom) = Return l' ∧
    l' ≡ₚ (new_id, "Bo") :: [(2, "Amy"); (1, "Zoe")].
Proof.
  apply (add_student_new classroom "Bo" [(2, "Amy"); (1, "Zoe")]).
  - apply classroom_unlocked.
  - by vm_compute.
  - compute_done.
Defined.

Lemma get_records_own_witness :
  ∃ l, result (get_records 1) classroom = Return l ∧
       l ≡ₚ (λ r, (r_id r, r_date r, r_content r)) <$>
              filter (λ r, r_student_id r = 1) (record_rows (disk classroom)) ∧
       StronglySorted (λ a b, text_le b.1.2 a.1.2 = true) l ∧
       (l = [] ↔ ∀ r, r ∈ record_rows (disk classroom) → r_student_id r ≠ 1).
Proof.
  apply (get_records_own classroom 1).
  - vm_compute. eauto.
  - unfold int64. lia.
Defined.

Lemma delete_record_exact_witness :
  result (delete_record 1) classroom = Return () ∧
  students (disk (after (delete_record 1) classroom)) = students (disk classroom) ∧
  result (get_records 1) (after (delete_record 1) classroom) =
    Return (filter (λ t, t.1.1 ≠ 1)
              [(2, "2024-02-05", "Met with parent"); (1, "2024-01-10", "Late for class")]).
Proof.
  apply (delete_record_exact classroom 1 1).
  - apply classroom_unlocked.
  - unfold int64. lia.
  - by vm_compute.
Defined.

Lemma delete_student_exact_witness :
  result (delete_student 1) classroom = Return () ∧
  result get_students (after (delete_student 1) classroom) =
    Return (filter (λ p, p.1 ≠ 1) [(2, "Amy"); (1, "Zoe")]).
Proof.
  apply (delete_student_exact classroom 1).
  - apply classroom_unlocked.
  - unfold int64. lia.
  - by vm_compute.
Defined.

Lemma add_record_frame_witness :
  result (add_record 2 "2024-03-01" "Met with parent") classroom = Return () ∧
  students (disk (after (add_record 2 "2024-03-01" "Met with parent") classroom)) =
    students (disk classroom) ∧
  (∃ new_id l',
     (new_id ∉ record_ids (disk classroom)) ∧
     result (get_records 2)
       (after (add_record 2 "2024-03-01" "Met with parent") classroom) = Return l' ∧
     l' ≡ₚ (new_id, "2024-03-01", "Met with parent") :: []) ∧
  ∀ other, other ≠ 2 →
    result (get_records other)
      (after (add_record 2 "2024-03-01" "Met with parent") classroom) =
    result (get_records other) classroom.
Proof.
  apply (add_record_frame classroom 2 "2024-03-01" "Met with parent" []).
  - apply classroom_unlocked.
  - unfold int64. lia.
  - by vm_compute.
Defined.

Lemma calls_need_tables_witness :
  call_outcome (AddStudent "Amy") fresh_world = Raise OperationalError ∧
  disk (perform (AddStudent "Amy") fresh_world) = disk fresh_world.
Proof.
  apply (calls_need_tables fresh_world (AddStudent "Amy")); done.
Defined.

Lemma call_returns_witness :
  call_outcome (DeleteStudent 1) classroom = Return () ∧
  initialized (disk (perform (DeleteStudent 1) classroom)) ∧
  unlocked (perform (DeleteStudent 1) classroom).
Proof.
  destruct (call_returns classroom (DeleteStudent 1)) as (Hret & Hinit & Hu).
  - split; vm_compute; eauto.
  - apply classroom_unlocked.
  - unfold call_int64, int64. lia.
  - split; [exact Hret|]. split; [exact Hinit|]. apply Hu. intros name Hc. discriminate Hc.
Defined.

Lemma get_students_order_independent_witness :
  result get_students classroom =
  result get_students
    (World (Database (Some (Table [StudentRow 2 "Amy"; StudentRow 1 "Zoe"] 2)) None) ∅ 0).
Proof.
  apply (get_students_order_independent classroom _
           (Table [StudentRow 1 "Zoe"; StudentRow 2 "Amy"] 2)
           (Table [StudentRow 2 "Amy"; StudentRow 1 "Zoe"] 2)).
  - by vm_compute.
  - done.
  - apply Permutation_swap.
  - compute_done.
Defined.

Lemma strftime_roundtrip_witness :
  parse_ymd (strftime_ymd (Date 2024 3 1)) = Some (2024, 3, 1).
Proof.
  apply (strftime_roundtrip (Date 2024 3 1)). unfold valid_date. simpl. lia.
Defined.

Lemma student_dict_lookup_witness :
  dict_keys (student_dict [(2, "Amy"); (1, "Zoe")]) = [(2, "Amy"); (1, "Zoe")].*2 ∧
  ∀ id name, dict_get name (student_dict [(2, "Amy"); (1, "Zoe")]) = Some id ↔
             (id, name) ∈ [(2, "Amy"); (1, "Zoe")].
Proof.
  apply (student_dict_lookup [(2, "Amy"); (1, "Zoe")]). compute_done.
Defined.

Lemma script_returns_witness :
  (∀ shown, result (script (click_save 1 (Date 2024 3 1) "Absent")) classroom ≠
              Return (shown, KeyError)) ∧
  ∃ shown e, result (script (click_save 1 (Date 2024 3 1) "Absent")) classroom =
               Return (shown, e).
Proof.
  destruct (script_returns classroom (click_save 1 (Date 2024 3 1) "Absent"))
    as [Hkey Hret].
  split; [exact Hkey|]. apply Hret.
  - apply classroom_unlocked.
  - intros Hc. discriminate Hc.
Defined.

Lemma script_reads_only_witness :
  disk (after (script (click_add "Amy")) classroom) = with_tables (disk classroom).
Proof.
  apply (script_reads_only classroom (click_add "Amy")).
  - intros _. right. compute_done.
  - reflexivity.
  - reflexivity.
  - reflexivity.
Defined.

Lemma script_adds_record_witness :
  r_student_id (RecordRow 3 1 "2024-03-01" "Absent") ∈
    student_ids (disk (after (script (click_save 1 (Date 2024 3 1) "Absent")) classroom)) ∧
  r_content (RecordRow 3 1 "2024-03-01" "Absent") ≠ "" ∧
  (valid_date (record_date (click_save 1 (Date 2024 3 1) "Absent")) →
   parse_ymd (r_date (RecordRow 3 1 "2024-03-01" "Absent")) =
     Some (ymd (record_date (click_save 1 (Date 2024 3 1) "Absent")))).
Proof.
  apply (script_adds_record classroom (click_save 1 (Date 2024 3 1) "Absent")
           (RecordRow 3 1 "2024-03-01" "Absent")).
  - compute_done.
  - compute_done.
Defined.

Lemma session_new_student_no_records_witness :
  result (get_records 2)
    (after (script (click_add "Amy"))
       (session [click_add "Zoe"; click_save 0 (Date 2024 3 1) "Absent";
                 click_delete_student 0] fresh_world)) = Return [].
Proof.
  apply (session_new_student_no_records
           [click_add "Zoe"; click_save 0 (Date 2024 3 1) "Absent";
            click_delete_student 0] (click_add "Amy") 2).
  - compute_done.
  - compute_done.
Defined.

Lemma session_latest_first_witness :
  ∃ l, result (get_records 1)
         (session [click_add "Zoe"; click_save 0 (Date 2024 2 5) "Met with parent";
                   click_save 0 (Date 2024 1 10) "Late for class";
                   click_save 0 (Date 2024 3 1) "Absent"] fresh_world) = Return l ∧
       Forall (λ t, is_Some (parse_ymd t.1.2)) l ∧
       StronglySorted (λ a b, ∀ da db, parse_ymd a.1.2 = Some da →
                                parse_ymd b.1.2 = Some db → ¬ earlier da db) l.
Proof.
  apply (session_latest_first (click_add "Zoe")
           [click_save 0 (Date 2024 2 5) "Met with parent";
            click_save 0 (Date 2024 1 10) "Late for class";
            click_save 0 (Date 2024 3 1) "Absent"] 1).
  - repeat constructor; simpl; lia.
  - unfold int64. lia.
Defined.
